(** * Galliun payment widget: the message router and the button state machine

    A shallow embedding of [src/galliun.js].  The two classes of the file,
    [GalliunClient] (the message router with its registry of features) and
    [GalliunButton] (a mounted button that owns a popup window), are
    modelled as operations of a state-and-exception monad over a [World]
    that holds the client, the heap of button objects and the part of the
    browser the code talks to: popup windows, interval timers, the DOM
    containers, the viewport size and the clock.

    Host callbacks are opaque functions of the embedding page: a call to
    one is recorded in the trace of observations and either returns or
    raises.  What a callback does besides (calling back into the widget)
    is outside the model. *)

From stdpp Require Import gmap strings list fin_maps pretty.
From Stdlib Require Import ZArith Lia Ascii.

#[local] Set Warnings "-register-all".

Local Open Scope string_scope.
Local Open Scope Z_scope.
Local Open Scope list_scope.

(** ** JavaScript values *)

(** The values that travel in message payloads and option bags.  The
    numbers are those with an integer value, which covers amounts,
    timestamps and pixel sizes: [VNum n] is the number nearest to the
    integer [n], which is [n] itself up to [2 ^ 53]. *)
Inductive jsval : Type :=
  | VUndefined
  | VNull
  | VBool (b : bool)
  | VNum (n : Z)
  | VStr (s : string)
  | VObj (fields : list (string * jsval)).

(** ToBoolean. *)
Definition truthy (v : jsval) : bool :=
  match v with
  | VUndefined | VNull => false
  | VBool b => b
  | VNum n => negb (n =? 0)
  | VStr s => negb (String.eqb s EmptyString)
  | VObj _ => true
  end.

(** [a || b] on values. *)
Definition js_or (a b : jsval) : jsval := if truthy a then a else b.

(** ** Number::toString

    A number is printed with the fewest digits that still denote it: all
    of its digits below [2 ^ 53], zeros after the significant digits up to
    21 digits, and the exponent form from there on. *)

(** The double nearest to the positive integer [n] (ties to the even
    significand), as an integer; [None] when it is infinite. *)
Definition double_of_Z (n : Z) : option Z :=
  let e := Z.log2 n in
  if e <=? 52 then Some n
  else
    let ulp := 2 ^ (e - 52) in
    let q := n / ulp in
    let r := n mod ulp in
    let half := ulp / 2 in
    let q' := if r <? half then q
              else if half <? r then q + 1
              else if Z.even q then q else q + 1 in
    let d := q' * ulp in
    if 2 ^ 1024 <=? d then None else Some d.

Definition num_digits (n : Z) : Z := Z.of_nat (String.length (pretty n)).

(** The decimal with [k] significant digits that denotes the double [d],
    if there is one: the one nearest to [d], the even one of two. *)
Definition shortest_at (d : Z) (k : Z) : option Z :=
  let p := num_digits d - k in
  if p <? 0 then None
  else
    let s0 := d / 10 ^ p in
    let lo := s0 * 10 ^ p in
    let hi := (s0 + 1) * 10 ^ p in
    let denotes v := match double_of_Z v with
                     | Some d' => d' =? d
                     | None => false
                     end in
    match denotes lo, denotes hi with
    | true, true =>
        Some (if d - lo <? hi - d then lo
              else if hi - d <? d - lo then hi
              else if Z.even s0 then lo else hi)
    | true, false => Some lo
    | false, true => Some hi
    | false, false => None
    end.

(** The decimal with the fewest significant digits that denotes [d]. *)
Definition shortest (d : Z) : Z :=
  match omap (shortest_at d) (Z.of_nat <$> seq 1 17) with
  | v :: _ => v
  | [] => d
  end.

Fixpoint strip_zeros (s : string) : string :=
  match s with
  | EmptyString => EmptyString
  | String c s' =>
      match strip_zeros s' with
      | EmptyString => if Ascii.eqb c "0" then EmptyString else String c EmptyString
      | t => String c t
      end
  end.

(** Number::toString of the positive double [d], given as an integer. *)
Definition double_toString (d : Z) : string :=
  let v := shortest d in
  let n := num_digits v in
  if n <=? 21 then pretty v
  else
    match strip_zeros (pretty v) with
    | String c EmptyString => String c ("e+" +:+ pretty (n - 1))
    | String c t => String c ("." +:+ t +:+ "e+" +:+ pretty (n - 1))
    | EmptyString => EmptyString
    end.

(** Number::toString of the number nearest to the integer [n]. *)
Definition Number_toString (n : Z) : string :=
  if n =? 0 then "0"
  else
    let a := Z.abs n in
    (if n <? 0 then "-" else EmptyString) +:+
    (if a <? 2 ^ 53 then pretty a
     else match double_of_Z a with
          | Some d => double_toString d
          | None => "Infinity"
          end).

(** ToString, as used by template literals and [encodeURIComponent]. *)
Definition toString (v : jsval) : string :=
  match v with
  | VUndefined => "undefined"
  | VNull => "null"
  | VBool true => "true"
  | VBool false => "false"
  | VNum n => Number_toString n
  | VStr s => s
  | VObj _ => "[object Object]"
  end.

(** [v === "lit"] for a string literal. *)
Definition strict_eq_str (v : jsval) (lit : string) : bool :=
  match v with
  | VStr s => String.eqb s lit
  | _ => false
  end.

Fixpoint assoc {A : Type} (k : string) (l : list (string * A)) : option A :=
  match l with
  | [] => None
  | (k', v) :: l' => if String.eqb k k' then Some v else assoc k l'
  end.

(** ** encodeURIComponent

    Strings are sequences of UTF-8 bytes, so percent-encoding every byte
    outside the unreserved set is what the browser function does. *)
Definition hex_digit (n : N) : ascii :=
  Ascii.ascii_of_N (if (n <? 10)%N then 48 + n else 55 + n)%N.

Definition unreserved (c : ascii) : bool :=
  let n := Ascii.N_of_ascii c in
  ((48 <=? n) && (n <=? 57) || (65 <=? n) && (n <=? 90)
   || (97 <=? n) && (n <=? 122)
   || (n =? 45) || (n =? 95) || (n =? 46) || (n =? 33) || (n =? 126)
   || (n =? 42) || (n =? 39) || (n =? 40) || (n =? 41))%N.

Fixpoint encodeURIComponent (s : string) : string :=
  match s with
  | EmptyString => EmptyString
  | String c s' =>
      if unreserved c then String c (encodeURIComponent s')
      else
        let n := Ascii.N_of_ascii c in
        String "%" (String (hex_digit (n / 16)) (String (hex_digit (n mod 16))
          (encodeURIComponent s')))
  end.

(** The text of the number [n / 2]: an integer, or one ending in [.5]. *)
Definition half_toString (n : Z) : string :=
  if Z.even n then pretty (n / 2)
  else (if n <? 0 then "-" else EmptyString) +:+ pretty (Z.abs n / 2) +:+ ".5".

(** ** Objects of the model *)

Abbreviation fid := nat.      (* reference to a GalliunButton object *)
Abbreviation handle := nat.   (* reference to a popup window *)
Abbreviation timer := nat.    (* id returned by setInterval *)

(** A host-supplied function: it returns, or it raises. *)
Inductive callback : Type := Returns | Throws.

Inductive cbname : Type := OnSuccess | OnError | OnClose | OnLoaded.

Record Callbacks : Type := mkCallbacks {
  onSuccess : option callback;
  onError : option callback;
  onClose : option callback;
  onLoaded : option callback
}.

(** [this.callbacks = {}] of the constructor. *)
Definition no_callbacks : Callbacks := mkCallbacks None None None None.

Record GalliunButton : Type := mkButton {
  elementId : string;
  baseUrl : string;
  popup : option handle;
  callbacks : Callbacks;
  productId : jsval
}.

(** The [options] bag of [mount]. *)
Record Options : Type := mkOptions {
  o_productId : jsval;
  o_buttonText : jsval;
  o_buttonSize : jsval;
  o_buttonTheme : jsval;
  o_customStyles : option (list (string * string));
  o_onSuccess : option callback;
  o_onError : option callback;
  o_onClose : option callback;
  o_onLoaded : option callback
}.

(** The button element that [mount] renders.  [style] lists the
    assignments that [Object.assign] makes to [button.style], in the order
    in which they are made; what the element holds after them is the
    browser's business.  The click listener calls [openPopup] of
    [click_owner] with [click_productId]. *)
Record HTMLButton : Type := mkHTMLButton {
  textContent : string;
  style : list (string * string);
  click_owner : fid;
  click_productId : jsval
}.

(** What a DOM container holds: the host page's own content, or the one
    button left there by [innerHTML = ''] and [appendChild]. *)
Inductive Container : Type :=
  | HostContent
  | Rendered (b : HTMLButton).

Record MessageEvent : Type := mkMessageEvent {
  origin : string;
  data : jsval
}.

(** Observable effects: calls of host callbacks, console output and
    [window.open]. *)
Inductive obs : Type :=
  | Call (f : fid) (cb : cbname) (args : list jsval)
  | ConsoleError (msg : string)
  | WindowOpen (url name features : string).

Inductive exn : Type :=
  | TypeError
  | HostError (f : fid) (cb : cbname)
  | DanglingReference.

Record World : Type := mkWorld {
  (* GalliunClient *)
  c_baseUrl : string;
  popupOrigin : string;
  listening : bool;
  _activeFeatures : list fid;
  (* heap of GalliunButton objects *)
  buttons : list GalliunButton;
  (* browser *)
  windows : list bool;            (* the [closed] flag of each popup *)
  intervals : list (option fid);  (* running poll timers and their button *)
  dom : gmap string Container;
  innerWidth : Z;
  innerHeight : Z;
  now : Z
}.

Definition set_listening (b : bool) (w : World) : World :=
  mkWorld (c_baseUrl w) (popupOrigin w) b (_activeFeatures w) (buttons w)
    (windows w) (intervals w) (dom w) (innerWidth w) (innerHeight w) (now w).

Definition set_activeFeatures (s : list fid) (w : World) : World :=
  mkWorld (c_baseUrl w) (popupOrigin w) (listening w) s (buttons w)
    (windows w) (intervals w) (dom w) (innerWidth w) (innerHeight w) (now w).

Definition set_buttons (bs : list GalliunButton) (w : World) : World :=
  mkWorld (c_baseUrl w) (popupOrigin w) (listening w) (_activeFeatures w) bs
    (windows w) (intervals w) (dom w) (innerWidth w) (innerHeight w) (now w).

Definition set_windows (ws : list bool) (w : World) : World :=
  mkWorld (c_baseUrl w) (popupOrigin w) (listening w) (_activeFeatures w)
    (buttons w) ws (intervals w) (dom w) (innerWidth w) (innerHeight w) (now w).

Definition set_intervals (ts : list (option fid)) (w : World) : World :=
  mkWorld (c_baseUrl w) (popupOrigin w) (listening w) (_activeFeatures w)
    (buttons w) (windows w) ts (dom w) (innerWidth w) (innerHeight w) (now w).

Definition set_dom (d : gmap string Container) (w : World) : World :=
  mkWorld (c_baseUrl w) (popupOrigin w) (listening w) (_activeFeatures w)
    (buttons w) (windows w) (intervals w) d (innerWidth w) (innerHeight w)
    (now w).

Definition set_now (t : Z) (w : World) : World :=
  mkWorld (c_baseUrl w) (popupOrigin w) (listening w) (_activeFeatures w)
    (buttons w) (windows w) (intervals w) (dom w) (innerWidth w)
    (innerHeight w) t.

(** ** The monad: state, a trace of observations, exceptions *)

Inductive outcome (A : Type) : Type :=
  | Ret (a : A)
  | Throw (e : exn).
Arguments Ret {A} a.
Arguments Throw {A} e.

Definition M (A : Type) : Type := World -> World * list obs * outcome A.

Definition ret {A : Type} (a : A) : M A := fun w => (w, [], Ret a).

Definition throw {A : Type} (e : exn) : M A := fun w => (w, [], Throw e).

Definition bind {A B : Type} (m : M A) (k : A -> M B) : M B :=
  fun w =>
    match m w with
    | (w1, t1, Ret a) =>
        match k a w1 with
        | (w2, t2, r) => (w2, t1 ++ t2, r)
        end
    | (w1, t1, Throw e) => (w1, t1, Throw e)
    end.

Notation "x <- m ;; k" := (bind m (fun x => k))
  (at level 100, m at next level, right associativity).
Notation "m ;;; k" := (bind m (fun _ => k))
  (at level 100, right associativity).

Definition get_world : M World := fun w => (w, [], Ret w).
Definition modify (g : World -> World) : M unit := fun w => (g w, [], Ret tt).
Definition emit (o : obs) : M unit := fun w => (w, [o], Ret tt).

(** [Date.now()] *)
Definition Date_now : M Z := fun w => (w, [], Ret (now w)).

Definition world_of {A : Type} (r : World * list obs * outcome A) : World :=
  fst (fst r).
Definition trace_of {A : Type} (r : World * list obs * outcome A) : list obs :=
  snd (fst r).
Definition outcome_of {A : Type} (r : World * list obs * outcome A)
  : outcome A := snd r.

(** Property read [v.k]: a [TypeError] on [undefined] and [null], the
    property of an object, [undefined] on the other primitives. *)
Definition getProp (v : jsval) (k : string) : M jsval :=
  match v with
  | VUndefined | VNull => throw TypeError
  | VObj fields => ret (default VUndefined (assoc k fields))
  | _ => ret VUndefined
  end.

(** Calling a host callback. *)
Definition call (f : fid) (name : cbname) (cb : callback) (args : list jsval)
  : M unit :=
  emit (Call f name args) ;;;
  match cb with
  | Returns => ret tt
  | Throws => throw (HostError f name)
  end.

(** [cb?.(args)] *)
Definition call_opt (f : fid) (name : cbname) (cb : option callback)
    (args : list jsval) : M unit :=
  match cb with
  | Some c => call f name c args
  | None => ret tt
  end.

(** Reading and updating the object behind a button reference. *)
Definition this_ (f : fid) : M GalliunButton :=
  w <- get_world ;;
  match buttons w !! f with
  | Some b => ret b
  | None => throw DanglingReference
  end.

Definition update_this (f : fid) (g : GalliunButton -> GalliunButton)
  : M unit :=
  modify (fun w => set_buttons (alter g f (buttons w)) w).

(** [popup.closed] and [popup.close()]. *)
Definition is_closed (w : World) (h : handle) : bool :=
  default true (windows w !! h).

Definition popup_close (h : handle) : M unit :=
  modify (fun w => set_windows (<[h := true]> (windows w)) w).

(** ** GalliunClient: the feature registry (a JavaScript [Set]) *)

Definition Set_add (x : fid) (s : list fid) : list fid :=
  if decide (x ∈ s) then s else s ++ [x].

Definition Set_delete (x : fid) (s : list fid) : list fid :=
  filter (fun y => y ≠ x) s.

Definition registerFeature (feature : fid) : M unit :=
  modify (fun w => set_activeFeatures (Set_add feature (_activeFeatures w)) w).

Definition unregisterFeature (feature : fid) : M unit :=
  modify (fun w =>
    set_activeFeatures (Set_delete feature (_activeFeatures w)) w).

(** [Set.prototype.forEach]: the members are visited in insertion order;
    a member deleted before its turn is skipped.  (Nothing is added to the
    registry while it is iterated: only [mount] registers.) *)
Fixpoint Set_forEach (members : list fid) (body : fid -> M unit) : M unit :=
  match members with
  | [] => ret tt
  | x :: rest =>
      w <- get_world ;;
      (if decide (x ∈ _activeFeatures w) then body x else ret tt) ;;;
      Set_forEach rest body
  end.

(** ** The browser: windows and timers *)

(** What [window.open] gives back is the browser's choice: [null] when
    the popup is blocked, a new window (which may already report closed),
    or the window that already carries the requested name. *)
Inductive open_result : Type :=
  | OpenNull
  | OpenNew (closed : bool)
  | OpenNamed (h : handle).

Definition window_open (url name features : string) (r : open_result)
  : M (option handle) :=
  emit (WindowOpen url name features) ;;;
  match r with
  | OpenNull => ret None
  | OpenNew closed =>
      w <- get_world ;;
      modify (set_windows (windows w ++ [closed])) ;;;
      ret (Some (length (windows w)))
  | OpenNamed h => ret (Some h)
  end.

Definition setInterval (f : fid) : M timer :=
  w <- get_world ;;
  modify (set_intervals (intervals w ++ [Some f])) ;;;
  ret (length (intervals w)).

Definition clearInterval (t : timer) : M unit :=
  modify (fun w => set_intervals (<[t := None]> (intervals w)) w).

(** ** GalliunButton *)

Definition set_popup (p : option handle) (b : GalliunButton) : GalliunButton :=
  mkButton (elementId b) (baseUrl b) p (callbacks b) (productId b).

Definition set_callbacks (c : Callbacks) (b : GalliunButton) : GalliunButton :=
  mkButton (elementId b) (baseUrl b) (popup b) c (productId b).

Definition set_productId (p : jsval) (b : GalliunButton) : GalliunButton :=
  mkButton (elementId b) (baseUrl b) (popup b) (callbacks b) p.

(** [new GalliunButton(elementId, config)] *)
Definition GalliunButton_new (elementId baseUrl : string) : GalliunButton :=
  mkButton elementId baseUrl None no_callbacks VUndefined.

(** [if (this.popup) this.popup.close()] *)
Definition close_if_popup (f : fid) : M unit :=
  this <- this_ f ;;
  match popup this with
  | Some h => popup_close h
  | None => ret tt
  end.

(** [if (this.popup && !this.popup.closed) this.popup.close()] *)
Definition close_if_open (f : fid) : M unit :=
  this <- this_ f ;;
  w <- get_world ;;
  match popup this with
  | Some h => if negb (is_closed w h) then popup_close h else ret tt
  | None => ret tt
  end.

(** [!this.popup || this.popup.closed] *)
Definition popup_gone (f : fid) : M bool :=
  this <- this_ f ;;
  w <- get_world ;;
  ret (match popup this with
       | Some h => is_closed w h
       | None => true
       end).

Definition Button_handleError (f : fid) (error : jsval) : M unit :=
  this <- this_ f ;;
  match onError (callbacks this) with
  | Some cb =>
      ty <- getProp error "type" ;;
      code <- getProp error "code" ;;
      message <- getProp error "message" ;;
      message <- (if truthy message then ret message
                  else getProp error "error") ;;
      param <- getProp error "param" ;;
      timestamp <- Date_now ;;
      call f OnError cb
        [VObj [("type", js_or ty (VStr "api_error"));
               ("code", code);
               ("message", message);
               ("param", param);
               ("metadata", VObj [("productId", productId this);
                                  ("timestamp", VNum timestamp)])]]
  | None => ret tt
  end ;;;
  close_if_popup f.

Definition Button_handleMessage (f : fid) (event : MessageEvent) : M unit :=
  ty <- getProp (data event) "type" ;;
  d <- getProp (data event) "data" ;;
  this <- this_ f ;;
  if strict_eq_str ty "GALLIUN_LOADED" then
    call_opt f OnLoaded (onLoaded (callbacks this)) []
  else if strict_eq_str ty "GALLIUN_SUCCESS" then
    match onSuccess (callbacks this) with
    | Some cb =>
        transactionId <- getProp d "transactionId" ;;
        amount <- getProp d "amount" ;;
        coinType <- getProp d "coinType" ;;
        timestamp <- getProp d "timestamp" ;;
        pid <- getProp d "productId" ;;
        billId <- getProp d "billId" ;;
        product <- getProp d "product" ;;
        call f OnSuccess cb
          [VObj [("id", transactionId);
                 ("status", VStr "succeeded");
                 ("amount", amount);
                 ("currency", coinType);
                 ("created", timestamp);
                 ("metadata", VObj [("productId", pid); ("billId", billId)]);
                 ("product", product)]]
    | None => ret tt
    end ;;;
    close_if_popup f
  else if strict_eq_str ty "GALLIUN_ERROR" then
    Button_handleError f d
  else if strict_eq_str ty "GALLIUN_CLOSE" then
    close_if_popup f ;;;
    call_opt f OnClose (onClose (callbacks this)) []
  else ret tt.

(** The body of the closure-poll timer that [openPopup] starts. *)
Definition pollTick (f : fid) (pollTimer : timer) : M unit :=
  gone <- popup_gone f ;;
  if gone : bool then
    clearInterval pollTimer ;;;
    this <- this_ f ;;
    call_opt f OnClose (onClose (callbacks this)) []
  else ret tt.

Definition popup_features (w : World) : string :=
  let width := 400 in
  let height := 600 in
  String.concat ","
    ["width=" +:+ pretty width;
     "height=" +:+ pretty height;
     "left=" +:+ half_toString (innerWidth w - width);
     "top=" +:+ half_toString (innerHeight w - height);
     "resizable=yes";
     "scrollbars=yes"].

Definition Button_openPopup (f : fid) (pid : jsval) (r : open_result)
  : M unit :=
  close_if_open f ;;;
  this <- this_ f ;;
  w <- get_world ;;
  p <- window_open
         (baseUrl this +:+ "/popup-payment?productId="
            +:+ encodeURIComponent (toString pid))
         "GalliunPaymentPopup" (popup_features w) r ;;
  update_this f (set_popup p) ;;;
  gone <- popup_gone f ;;
  if gone : bool then
    Button_handleError f
      (VObj [("type", VStr "popup_error");
             ("code", VStr "popup_blocked");
             ("message", VStr
                "Payment popup was blocked. Please allow popups for this site.")])
  else
    setInterval f ;;; ret tt.

Definition dquote : string := String (ascii_of_nat 34) EmptyString.

Definition base_styles (size : jsval) : list (string * string) :=
  [("padding", if strict_eq_str size "large" then "16px 24px"
               else if strict_eq_str size "small" then "8px 16px"
               else "12px 20px");
   ("border", "none");
   ("borderRadius", "8px");
   ("cursor", "pointer");
   ("fontSize", if strict_eq_str size "large" then "16px"
                else if strict_eq_str size "small" then "14px"
                else "15px");
   ("fontWeight", "500");
   ("transition", "all 0.2s ease");
   ("width", "auto");
   ("display", "inline-flex");
   ("alignItems", "center");
   ("justifyContent", "center");
   ("gap", "8px")].

Definition theme_styles (theme : jsval) : list (string * string) :=
  if strict_eq_str theme "dark"
  then [("background", "#1e293b"); ("color", "#ffffff")]
  else [("background", "#4f46e5"); ("color", "#ffffff")].

(** The element built by [mount]; the hover listeners only restyle it and
    are left out. *)
Definition render_button (f : fid) (options : Options) : HTMLButton :=
  mkHTMLButton
    (toString (js_or (o_buttonText options) (VStr "Pay with Galliun")))
    (base_styles (o_buttonSize options)
       ++ theme_styles (o_buttonTheme options)
       ++ match o_customStyles options with
          | Some cs => cs
          | None => []
          end)
    f (o_productId options).

Definition Button_mount (f : fid) (options : Options) : M unit :=
  this <- this_ f ;;
  w <- get_world ;;
  match dom w !! elementId this with
  | None =>
      emit (ConsoleError
              ("Element with id " +:+ dquote +:+ elementId this +:+ dquote
                 +:+ " not found"))
  | Some _ =>
      update_this f
        (set_callbacks (mkCallbacks (o_onSuccess options) (o_onError options)
                          (o_onClose options) (o_onLoaded options))) ;;;
      registerFeature f ;;;
      if negb (truthy (o_productId options)) then
        Button_handleError f
          (VObj [("type", VStr "validation_error");
                 ("code", VStr "parameter_missing");
                 ("message", VStr "Product ID is required");
                 ("param", VStr "productId")])
      else
        update_this f (set_productId (o_productId options)) ;;;
        modify (fun w =>
          set_dom (<[elementId this := Rendered (render_button f options)]>
                     (dom w)) w)
  end.

Definition Button_destroy (f : fid) : M unit :=
  close_if_open f ;;;
  unregisterFeature f.

(** ** GalliunClient *)

(** [new GalliunClient(config)] in a browser whose URL parser is
    [URL_origin]; the rest of the arguments is the page as it is then. *)
Definition GalliunClient_new (URL_origin : string -> string)
    (config_baseUrl : jsval) (page : gmap string Container)
    (width height clock : Z) : World :=
  let base := toString (js_or config_baseUrl (VStr "http://localhost:5173")) in
  mkWorld base (URL_origin base) true [] [] [] [] page width height clock.

(** [client.elements.createButton(elementId, options)]: a new button
    object wired to this client's register and unregister methods. *)
Definition createButton (elementId : string) : M fid :=
  w <- get_world ;;
  modify (set_buttons (buttons w ++ [GalliunButton_new elementId (c_baseUrl w)])) ;;;
  ret (length (buttons w)).

(** Every feature of the registry is a GalliunButton, so the test
    [typeof feature.handleMessage === 'function'] holds for each. *)
Definition Client_handleMessage (event : MessageEvent) : M unit :=
  w <- get_world ;;
  if negb (String.eqb (origin event) (popupOrigin w)) then ret tt
  else
    Set_forEach (_activeFeatures w)
      (fun feature => Button_handleMessage feature event).

Definition Client_destroy : M unit :=
  modify (set_listening false) ;;;
  w <- get_world ;;
  Set_forEach (_activeFeatures w) (fun feature => Button_destroy feature) ;;;
  modify (set_activeFeatures []).

(** ** The event loop *)

(** What happens to the page: calls made by the host page, and the events
    the browser delivers. *)
Inductive event : Type :=
  | EvCreateButton (elementId : string)
  | EvMount (f : fid) (options : Options)
  | EvDestroy (f : fid)
  | EvClientDestroy
  | EvClick (elementId : string) (r : open_result)
  | EvMessage (m : MessageEvent)
  | EvTick (t : timer)
  | EvUserClose (h : handle)
  | EvElapse (ms : Z).

Definition step (e : event) : M unit :=
  match e with
  | EvCreateButton elementId => createButton elementId ;;; ret tt
  | EvMount f options => Button_mount f options
  | EvDestroy f => Button_destroy f
  | EvClientDestroy => Client_destroy
  | EvClick elementId r =>
      w <- get_world ;;
      match dom w !! elementId with
      | Some (Rendered b) =>
          Button_openPopup (click_owner b) (click_productId b) r
      | _ => ret tt
      end
  | EvMessage m =>
      w <- get_world ;;
      if listening w then Client_handleMessage m else ret tt
  | EvTick t =>
      w <- get_world ;;
      match intervals w !! t with
      | Some (Some f) => pollTick f t
      | _ => ret tt
      end
  | EvUserClose h => popup_close h
  | EvElapse ms => modify (fun w => set_now (now w + ms) w)
  end.

(** An exception that escapes a handler is reported by the browser and the
    page goes on with the next event. *)
Fixpoint run (evs : list event) (w : World) : World * list obs :=
  match evs with
  | [] => (w, [])
  | e :: evs' =>
      let '(w1, t1, _) := step e w in
      let '(w2, t2) := run evs' w1 in
      (w2, t1 ++ t2)
  end.

Local Close Scope Z_scope.

(** * Vocabulary of the properties *)

(** ** Judgments on computations *)

(** [m] keeps the world invariant [I]. *)
Definition preserves {A : Type} (I : World -> Prop) (m : M A) : Prop :=
  forall w, I w -> I (world_of (m w)).

(** [m] makes no observation selected by [P]. *)
Definition mute {A : Type} (P : obs -> bool) (m : M A) : Prop :=
  forall w, List.filter P (trace_of (m w)) = [].

(** [m] makes at most one observation selected by [P]. *)
Definition at_most_one {A : Type} (P : obs -> bool) (m : M A) : Prop :=
  forall w, length (List.filter P (trace_of (m w))) <= 1.

(** ** What the methods of a button compute *)

(** The text that [mount] logs when the target is missing. *)
Definition not_found_message (id : string) : string :=
  "Element with id " +:+ dquote +:+ id +:+ dquote +:+ " not found".

(** Property read on a value that is not [undefined] or [null]. *)
Definition prop (v : jsval) (k : string) : jsval :=
  match v with
  | VObj fields => default VUndefined (assoc k fields)
  | _ => VUndefined
  end.

(** [undefined] or [null]: the values without properties. *)
Definition nullish (v : jsval) : bool :=
  match v with
  | VUndefined | VNull => true
  | _ => false
  end.

(** The object [handleError] hands to [onError], for a feature whose
    stored product id is [pid], at time [t]. *)
Definition standardError (pid : jsval) (t : Z) (error : jsval) : jsval :=
  VObj [("type", js_or (prop error "type") (VStr "api_error"));
        ("code", prop error "code");
        ("message", js_or (prop error "message") (prop error "error"));
        ("param", prop error "param");
        ("metadata", VObj [("productId", pid); ("timestamp", VNum t)])].

(** The world once [popup.close()] has been called on [p], if there is one. *)
Definition closed_popup (p : option handle) (w : World) : World :=
  match p with
  | Some h => set_windows (<[h := true]> (windows w)) w
  | None => w
  end.

(** The world once [if (popup && !popup.closed) popup.close()] has run. *)
Definition closed_if_open (p : option handle) (w : World) : World :=
  match p with
  | Some h =>
      if is_closed w h then w
      else set_windows (<[h := true]> (windows w)) w
  | None => w
  end.

(** The error literal of [mount]. *)
Definition validation_error : jsval :=
  VObj [("type", VStr "validation_error");
        ("code", VStr "parameter_missing");
        ("message", VStr "Product ID is required");
        ("param", VStr "productId")].

(** The callbacks that [mount] stores. *)
Definition mount_callbacks (options : Options) : Callbacks :=
  mkCallbacks (o_onSuccess options) (o_onError options) (o_onClose options)
    (o_onLoaded options).

(** The world in which [mount] delivers the validation error: callbacks
    stored, feature registered. *)
Definition mount_registered (f : fid) (options : Options) (w : World) : World :=
  set_activeFeatures (Set_add f (_activeFeatures w))
    (set_buttons (alter (set_callbacks (mount_callbacks options)) f (buttons w))
       w).

(** The address that [openPopup] opens. *)
Definition popup_url (this : GalliunButton) (pid : jsval) : string :=
  baseUrl this +:+ "/popup-payment?productId="
    +:+ encodeURIComponent (toString pid).

(** The error literal of [openPopup]. *)
Definition popup_blocked_error : jsval :=
  VObj [("type", VStr "popup_error");
        ("code", VStr "popup_blocked");
        ("message", VStr
           "Payment popup was blocked. Please allow popups for this site.")].

(** Whether the handle that [window.open] returns is [null] or reports
    closed, for a feature whose popup field was [p] before the call. *)
Definition open_blocked (w : World) (p : option handle) (r : open_result)
  : bool :=
  match r with
  | OpenNull => true
  | OpenNew closed => closed
  | OpenNamed h => is_closed (closed_if_open p w) h
  end.

(** The result object built for [GALLIUN_SUCCESS] from the payload [d]. *)
Definition success_result (d : jsval) : jsval :=
  VObj [("id", prop d "transactionId");
        ("status", VStr "succeeded");
        ("amount", prop d "amount");
        ("currency", prop d "coinType");
        ("created", prop d "timestamp");
        ("metadata", VObj [("productId", prop d "productId");
                           ("billId", prop d "billId")]);
        ("product", prop d "product")].

(** A call of [window.open]. *)
Definition is_window_open (o : obs) : bool :=
  match o with
  | WindowOpen _ _ _ => true
  | _ => false
  end.

(** ** The router, traces and payment attempts *)

(** The client's trusted origin is [o]. *)
Definition origin_is (o : string) (w : World) : Prop := popupOrigin w = o.

(** The events that remain when the messages from other origins than [o]
    are taken out. *)
Definition from_trusted (o : string) (e : event) : bool :=
  match e with
  | EvMessage m => String.eqb (origin m) o
  | _ => true
  end.

(** The registry holds each feature at most once, as a [Set] does. *)
Definition registry_is_set (w : World) : Prop := NoDup (_activeFeatures w).

(** A computation that never reads the windows: run from two worlds that
    differ in their windows only, it observes and returns the same, and
    leaves worlds that again differ in their windows only. *)
Definition oblivious {A : Type} (m : M A) : Prop :=
  forall w ws1 ws2, exists ws1' ws2' t o,
    m (set_windows ws1 w) = (set_windows ws1' w, t, o) /\
    m (set_windows ws2 w) = (set_windows ws2' w, t, o).

(** The result is an exception. *)
Definition raises {A : Type} (r : World * list obs * outcome A) : bool :=
  match outcome_of r with
  | Throw _ => true
  | Ret _ => false
  end.

(** The members that a [forEach] reaches: those up to and including the
    first on which the body raises. *)
Fixpoint until_raise (members : list fid) (stop : fid -> bool) : list fid :=
  match members with
  | [] => []
  | x :: rest => if stop x then [x] else x :: until_raise rest stop
  end.

(** What the [forEach] returns: the first exception, if any. *)
Fixpoint first_raise (members : list fid) (result : fid -> outcome unit)
  : outcome unit :=
  match members with
  | [] => Ret tt
  | x :: rest =>
      match result x with
      | Throw e => Throw e
      | Ret _ => first_raise rest result
      end
  end.

(** A call of a callback of feature [f]. *)
Definition is_call_of (f : fid) (o : obs) : bool :=
  match o with
  | Call g _ _ => Nat.eqb g f
  | _ => false
  end.

(** A call of [onSuccess] or [onError] of feature [f]. *)
Definition is_terminal (f : fid) (o : obs) : bool :=
  match o with
  | Call g cb _ =>
      match cb with
      | OnSuccess | OnError => Nat.eqb g f
      | _ => false
      end
  | _ => false
  end.

(** How many times [onSuccess] or [onError] of [f] is called in a trace. *)
Definition terminal_calls (f : fid) (tr : list obs) : nat :=
  length (List.filter (is_terminal f) tr).

(** A message whose [type] is [GALLIUN_SUCCESS] or [GALLIUN_ERROR]. *)
Definition terminal_message (m : MessageEvent) : bool :=
  strict_eq_str (prop (data m) "type") "GALLIUN_SUCCESS"
  || strict_eq_str (prop (data m) "type") "GALLIUN_ERROR".

(** An event that is no terminal outcome for feature [f] and opens no
    popup for it: anything but a success or error message from the trusted
    origin, a [mount] of [f], and a click on the button of [f]. *)
Definition quiet (f : fid) (w : World) (e : event) : bool :=
  match e with
  | EvMessage m =>
      negb (terminal_message m && String.eqb (origin m) (popupOrigin w))
  | EvMount g _ => negb (Nat.eqb g f)
  | EvClick id _ =>
      match dom w !! id with
      | Some (Rendered b) => negb (Nat.eqb (click_owner b) f)
      | _ => true
      end
  | _ => true
  end.

(** Every event but the last one is quiet. *)
Fixpoint quiet_until_last (f : fid) (evs : list event) (w : World) : bool :=
  match evs with
  | [] => true
  | e :: rest =>
      match rest with
      | [] => true
      | _ => quiet f w e && quiet_until_last f rest (world_of (step e w))
      end
  end.

(** One payment attempt of feature [f], from world [w]: a click on the
    button of [f], which opens the popup, then the events up to the
    terminal outcome.  When the popup is blocked, that is the outcome and
    the attempt ends there. *)
Definition payment_attempt (f : fid) (w : World) (evs : list event) : bool :=
  match evs with
  | EvClick id r :: rest =>
      match dom w !! id, buttons w !! f with
      | Some (Rendered b), Some this =>
          Nat.eqb (click_owner b) f &&
          (if open_blocked w (popup this) r
           then match rest with [] => true | _ => false end
           else quiet_until_last f rest (world_of (step (EvClick id r) w)))
      | _, _ => false
      end
  | _ => false
  end.



(** A [mount] of feature [f]. *)
Definition mounts (f : fid) (e : event) : bool :=
  match e with
  | EvMount g _ => Nat.eqb g f
  | _ => false
  end.



(** ** Scenarios *)

(** A page with one container, and a client for [https://pay.example]. *)
Definition example_page : gmap string Container := {[ "pay" := HostContent ]}.

Definition example_client : World :=
  GalliunClient_new (fun url => url) (VStr "https://pay.example") example_page
    1024 768 1000.

(** The world after [client.elements.createButton("pay")]: button 0. *)
Definition example_world : World := world_of (createButton "pay" example_client).

Definition example_button : GalliunButton :=
  GalliunButton_new "pay" "https://pay.example".

(** Options with the four callbacks supplied and the given product id. *)
Definition example_options (pid : jsval) : Options :=
  mkOptions pid VUndefined VUndefined VUndefined None
    (Some Returns) (Some Returns) (Some Returns) (Some Returns).


(** The example button mounted with product id [p1] and all callbacks. *)
Definition mounted_world : World :=
  world_of (Button_mount 0 (example_options (VStr "p1")) example_world).

Definition mounted_button : GalliunButton :=
  set_productId (VStr "p1")
    (set_callbacks (mount_callbacks (example_options (VStr "p1")))
       example_button).

(** A page whose document has no element for the button. *)
Definition detached_world : World :=
  world_of (createButton "missing" example_client).

(** The mounted example button after a click that opened popup 0 and
    started timer 0. *)
Definition opened_world : World :=
  world_of (step (EvClick "pay" (OpenNew false)) mounted_world).

(** The payload of the scenario of the specification, for product [pid]. *)
Definition example_payload (pid : string) : jsval :=
  VObj [("transactionId", VStr "t1"); ("amount", VNum 500);
        ("coinType", VStr "USD"); ("timestamp", VNum 123);
        ("productId", VStr pid); ("billId", VStr "b1")].

Definition success_message (o : string) (d : jsval) : MessageEvent :=
  mkMessageEvent o (VObj [("type", VStr "GALLIUN_SUCCESS"); ("data", d)]).

Definition error_message (o : string) (d : jsval) : MessageEvent :=
  mkMessageEvent o (VObj [("type", VStr "GALLIUN_ERROR"); ("data", d)]).

Definition loaded_message : MessageEvent :=
  mkMessageEvent "https://pay.example" (VObj [("type", VStr "GALLIUN_LOADED")]).

(** An attempt of the example button: the popup opens, the remote page
    reports that it has loaded, the poll ticks, the payment succeeds. *)
Definition example_attempt : list event :=
  [EvClick "pay" (OpenNew false);
   EvMessage loaded_message;
   EvTick 0;
   EvMessage (success_message "https://pay.example" (example_payload "p1"))].

(** A page with two containers and two mounted buttons; the [onLoaded]
    callback of the first raises. *)
Definition two_button_page : gmap string Container :=
  {[ "pay" := HostContent; "donate" := HostContent ]}.

Definition raising_options : Options :=
  mkOptions (VStr "p1") VUndefined VUndefined VUndefined None
    (Some Returns) (Some Returns) (Some Returns) (Some Throws).

Definition two_button_world : World :=
  fst (run [EvCreateButton "pay"; EvCreateButton "donate";
            EvMount 0 raising_options;
            EvMount 1 (example_options (VStr "p2"))]
         (GalliunClient_new (fun url => url) (VStr "https://pay.example")
            two_button_page 1024 768 1000)).

(** ** Frames *)

(** From [w] to [w'] nothing has changed but windows that were open and
    are now closed. *)
Definition only_closes (w w' : World) : Prop :=
  buttons w' = buttons w /\
  _activeFeatures w' = _activeFeatures w /\
  intervals w' = intervals w /\
  dom w' = dom w /\
  listening w' = listening w /\
  length (windows w') = length (windows w) /\
  forall h, is_closed w h = true -> is_closed w' h = true.

(** The calls that message [m] makes a feature with callbacks [cbs] do when
    its type is none of success, error and close. *)
Definition loaded_calls (f : fid) (cbs : Callbacks) (m : MessageEvent)
  : list obs :=
  if strict_eq_str (prop (data m) "type") "GALLIUN_LOADED" then
    match onLoaded cbs with
    | Some _ => [Call f OnLoaded []]
    | None => []
    end
  else [].

(** The calls made when a closure is reported to a feature with callbacks
    [cbs]. *)
Definition close_calls (f : fid) (cbs : Callbacks) : list obs :=
  match onClose cbs with
  | Some _ => [Call f OnClose []]
  | None => []
  end.

(** The world that [openPopup] leaves when the browser opens a new window:
    the earlier popup closed, the new window stored in the button, one more
    timer. *)
Definition reopened (f : fid) (p : option handle) (w : World) : World :=
  set_intervals (intervals w ++ [Some f])
    (set_buttons (alter (set_popup (Some (length (windows w)))) f (buttons w))
       (set_windows (windows (closed_if_open p w) ++ [false]) w)).



(** Every event but the messages. *)
Definition not_a_message (e : event) : bool :=
  match e with
  | EvMessage _ => false
  | _ => true
  end.

(** The registry holds each feature once, and only buttons that exist. *)
Definition registry_valid (w : World) : Prop :=
  NoDup (_activeFeatures w) /\
  forall f, f ∈ _activeFeatures w -> f < length (buttons w).

(** * Reasoning principles for the monad *)

Section Judgments.
Context {A : Type}.

Lemma mute_at_most_one P (m : M A) : mute P m -> at_most_one P m.
Proof. intros H w. rewrite H. simpl. lia. Qed.

Lemma preserves_ret I (a : A) : preserves I (ret a).
Proof. intros w H. exact H. Qed.

Lemma preserves_throw I e : preserves I (@throw A e).
Proof. intros w H. exact H. Qed.

Lemma mute_ret P (a : A) : mute P (ret a).
Proof. intros w. reflexivity. Qed.

Lemma mute_throw P e : mute P (@throw A e).
Proof. intros w. reflexivity. Qed.
End Judgments.

Lemma preserves_bind {A B} I (m : M A) (k : A -> M B) :
  preserves I m -> (forall a, preserves I (k a)) -> preserves I (bind m k).
Proof.
  intros Hm Hk w Hw. specialize (Hm w Hw). unfold bind, world_of in *.
  destruct (m w) as [[w1 t1] [a|e]]; simpl in *; [|exact Hm].
  specialize (Hk a w1 Hm). unfold world_of in Hk.
  destruct (k a w1) as [[w2 t2] r]. exact Hk.
Qed.

Lemma trace_bind {A B} (m : M A) (k : A -> M B) w :
  trace_of (bind m k w) =
  trace_of (m w) ++
  match outcome_of (m w) with
  | Ret a => trace_of (k a (world_of (m w)))
  | Throw _ => []
  end.
Proof.
  unfold bind, trace_of, outcome_of, world_of.
  destruct (m w) as [[w1 t1] [a|e]]; simpl.
  - destruct (k a w1) as [[w2 t2] r]. reflexivity.
  - symmetry. apply app_nil_r.
Qed.

Lemma mute_bind {A B} P (m : M A) (k : A -> M B) :
  mute P m -> (forall a, mute P (k a)) -> mute P (bind m k).
Proof.
  intros Hm Hk w. rewrite trace_bind, List.filter_app, Hm.
  destruct (outcome_of (m w)); [apply Hk | reflexivity].
Qed.

Lemma at_most_one_bind_l {A B} P (m : M A) (k : A -> M B) :
  mute P m -> (forall a, at_most_one P (k a)) -> at_most_one P (bind m k).
Proof.
  intros Hm Hk w. rewrite trace_bind, List.filter_app, Hm.
  destruct (outcome_of (m w)); [apply Hk | simpl; lia].
Qed.

Lemma at_most_one_bind_r {A B} P (m : M A) (k : A -> M B) :
  at_most_one P m -> (forall a, mute P (k a)) -> at_most_one P (bind m k).
Proof.
  intros Hm Hk w. rewrite trace_bind, List.filter_app, length_app.
  specialize (Hm w).
  destruct (outcome_of (m w)); [rewrite Hk | ]; simpl; lia.
Qed.

Lemma preserves_get_world I : preserves I get_world.
Proof. intros w H. exact H. Qed.

Lemma preserves_emit I o : preserves I (emit o).
Proof. intros w H. exact H. Qed.

Lemma preserves_modify (I : World -> Prop) g :
  (forall w, I w -> I (g w)) -> preserves I (modify g).
Proof. intros Hg w H. apply Hg, H. Qed.

Lemma mute_get_world P : mute P get_world.
Proof. intros w. reflexivity. Qed.

Lemma preserves_Date_now I : preserves I Date_now.
Proof. intros w H. exact H. Qed.

Lemma mute_Date_now P : mute P Date_now.
Proof. intros w. reflexivity. Qed.

Lemma mute_modify P g : mute P (modify g).
Proof. intros w. reflexivity. Qed.

Lemma mute_emit P o : P o = false -> mute P (emit o).
Proof. intros H w. simpl. rewrite H. reflexivity. Qed.

Lemma preserves_forEach I members body :
  (forall x, preserves I (body x)) -> preserves I (Set_forEach members body).
Proof.
  intros Hb. induction members as [|x rest IH]; simpl.
  - apply preserves_ret.
  - apply preserves_bind; [apply preserves_get_world | intros w'].
    apply preserves_bind; [|intros _; exact IH].
    destruct (decide (x ∈ _activeFeatures w')); [apply Hb | apply preserves_ret].
Qed.

Lemma mute_forEach P members body :
  (forall x, mute P (body x)) -> mute P (Set_forEach members body).
Proof.
  intros Hb. induction members as [|x rest IH]; simpl.
  - apply mute_ret.
  - apply mute_bind; [apply mute_get_world | intros w'].
    apply mute_bind; [|intros _; exact IH].
    destruct (decide (x ∈ _activeFeatures w')); [apply Hb | apply mute_ret].
Qed.

(** One step of decomposition of a monadic program under a judgment. *)
Ltac preserves_step :=
  lazymatch goal with
  | |- preserves _ (bind _ _) => apply preserves_bind; [|intros ?]
  | |- preserves _ (ret _) => apply preserves_ret
  | |- preserves _ (throw _) => apply preserves_throw
  | |- preserves _ get_world => apply preserves_get_world
  | |- preserves _ Date_now => apply preserves_Date_now
  | |- preserves _ (emit _) => apply preserves_emit
  | |- preserves _ (modify _) =>
      apply preserves_modify; intros ? ?; simpl; try assumption
  | |- preserves _ (Set_forEach _ _) => apply preserves_forEach; intros ?
  | |- preserves _ (match ?x with _ => _ end) => destruct x
  end.

Ltac mute_step :=
  lazymatch goal with
  | |- mute _ (bind _ _) => apply mute_bind; [|intros ?]
  | |- mute _ (ret _) => apply mute_ret
  | |- mute _ (throw _) => apply mute_throw
  | |- mute _ get_world => apply mute_get_world
  | |- mute _ Date_now => apply mute_Date_now
  | |- mute _ (modify _) => apply mute_modify
  | |- mute _ (emit _) => apply mute_emit; simpl; try reflexivity
  | |- mute _ (Set_forEach _ _) => apply mute_forEach; intros ?
  | |- mute _ (match ?x with _ => _ end) => destruct x
  end.

Ltac unfold_model :=
  unfold getProp, call_opt, call, this_, update_this, popup_close,
    registerFeature, unregisterFeature, window_open, setInterval,
    clearInterval, close_if_popup, close_if_open, popup_gone, createButton.

(** ** The registry *)

Lemma Set_add_elem x s : x ∈ Set_add x s.
Proof.
  unfold Set_add. destruct (decide (x ∈ s)); [assumption|].
  apply elem_of_app. right. apply list_elem_of_singleton. reflexivity.
Qed.

Lemma Set_add_present x s : x ∈ s -> Set_add x s = s.
Proof. intros H. unfold Set_add. rewrite decide_True by exact H. reflexivity. Qed.

Lemma Set_add_NoDup x s : NoDup s -> NoDup (Set_add x s).
Proof.
  intros H. unfold Set_add. destruct (decide (x ∈ s)); [exact H|].
  apply NoDup_app. split; [exact H|]. split.
  - intros y Hy Hy'. apply list_elem_of_singleton in Hy'. subst. contradiction.
  - apply NoDup_singleton.
Qed.

Lemma Set_delete_not_elem x s : x ∉ Set_delete x s.
Proof.
  unfold Set_delete. intros H. apply list_elem_of_filter in H.
  destruct H as [H _]. apply H. reflexivity.
Qed.

Lemma Set_delete_absent x s : x ∉ s -> Set_delete x s = s.
Proof.
  unfold Set_delete. induction s as [|y s IH]; intros H; [reflexivity|].
  apply not_elem_of_cons in H. destruct H as [Hne Hs].
  rewrite filter_cons_True by (intros ->; apply Hne; reflexivity).
  rewrite IH by exact Hs. reflexivity.
Qed.

Lemma Set_delete_NoDup x s : NoDup s -> NoDup (Set_delete x s).
Proof. apply NoDup_filter. Qed.

Lemma Set_delete_other x y s : y ≠ x -> y ∈ s -> y ∈ Set_delete x s.
Proof. intros Hne H. apply list_elem_of_filter. split; assumption. Qed.

Lemma set_activeFeatures_id w : set_activeFeatures (_activeFeatures w) w = w.
Proof. destruct w. reflexivity. Qed.

(** ** The trusted origin never changes *)

Ltac preserves_all :=
  repeat (unfold_model; preserves_step).

Lemma handleError_origin o f error : preserves (origin_is o) (Button_handleError f error).
Proof. unfold Button_handleError. preserves_all. Qed.

Lemma handleMessage_origin o f m : preserves (origin_is o) (Button_handleMessage f m).
Proof.
  unfold Button_handleMessage. preserves_all; try apply handleError_origin.
Qed.

Lemma step_origin o e : preserves (origin_is o) (step e).
Proof.
  destruct e; simpl;
    unfold Button_mount, Button_destroy, Button_openPopup, Client_destroy,
      Client_handleMessage, pollTick;
    preserves_all;
    try apply handleError_origin; try apply handleMessage_origin.
  unfold Button_destroy. preserves_all.
Qed.

(** The trusted origin is the one derived from the base URL when the
    client was made, whatever has happened on the page since. *)
Lemma run_keeps_trusted_origin evs :
  forall w, popupOrigin (fst (run evs w)) = popupOrigin w.
Proof.
  induction evs as [|e rest IH]; intros w; [reflexivity|].
  pose proof (step_origin (popupOrigin w) e w eq_refl) as H1.
  unfold origin_is, world_of in H1. simpl.
  destruct (step e w) as [[w1 t1] r1]. simpl in H1.
  specialize (IH w1). destruct (run rest w1) as [w2 t2]. simpl in *.
  congruence.
Qed.

Lemma new_client_trusted_origin URL_origin base page width height clock evs :
  popupOrigin
    (fst (run evs (GalliunClient_new URL_origin base page width height clock)))
  = URL_origin (toString (js_or base (VStr "http://localhost:5173"))).
Proof. rewrite run_keeps_trusted_origin. reflexivity. Qed.

Lemma untrusted_message_discarded (m : MessageEvent) (w : World) :
  origin m ≠ popupOrigin w -> Client_handleMessage m w = (w, [], Ret tt).
Proof.
  intros H. unfold Client_handleMessage, bind, get_world.
  apply String.eqb_neq in H. rewrite H. reflexivity.
Qed.

Lemma run_without_untrusted o evs :
  forall w, popupOrigin w = o ->
    run evs w = run (List.filter (from_trusted o) evs) w.
Proof.
  induction evs as [|e evs IH]; intros w Hw; [reflexivity|].
  pose proof (step_origin o e w Hw) as Hstep. unfold origin_is in Hstep.
  destruct (from_trusted o e) eqn:He; simpl; rewrite He.
  - simpl. unfold world_of in Hstep.
    destruct (step e w) as [[w1 t1] r1]. simpl in Hstep.
    rewrite (IH w1 Hstep). reflexivity.
  - destruct e; try discriminate He. simpl in He.
    assert (Hd : step (EvMessage m) w = (w, [], Ret tt)).
    { simpl. unfold bind, get_world. destruct (listening w); [|reflexivity].
      rewrite untrusted_message_discarded; [reflexivity|].
      rewrite Hw. apply String.eqb_neq. exact He. }
    rewrite Hd. rewrite (IH w Hw).
    destruct (run (List.filter (from_trusted o) evs) w). reflexivity.
Qed.

(** C1.  A message whose origin is not the client's [popupOrigin] is
    dropped by [handleMessage]: the world is unchanged, nothing is observed
    (no callback of any feature is called) and nothing is raised.  As a
    consequence a run of the page is the same, in its final world and in
    everything observed, as the run with every such message taken out. *)
Theorem cross_origin_messages_are_discarded (w : World) :
  (forall m, origin m ≠ popupOrigin w ->
     Client_handleMessage m w = (w, [], Ret tt) /\
     step (EvMessage m) w = (w, [], Ret tt)) /\
  (forall evs,
     run evs w = run (List.filter (from_trusted (popupOrigin w)) evs) w).
Proof.
  split.
  - intros m H. split; [apply untrusted_message_discarded, H|].
    simpl. unfold bind, get_world. destruct (listening w); [|reflexivity].
    rewrite untrusted_message_discarded by exact H. reflexivity.
  - intros evs. apply run_without_untrusted. reflexivity.
Qed.

(** C8.  The registry is a set: registering a feature twice is registering
    it once, unregistering twice is unregistering once, unregistering a
    feature that is not registered changes nothing, and after registering
    twice and unregistering once the feature is not in the registry. *)
Theorem registry_operations_idempotent (f : fid) (w : World) :
  let reg := fun x w => world_of (registerFeature x w) in
  let unreg := fun x w => world_of (unregisterFeature x w) in
  reg f (reg f w) = reg f w /\
  unreg f (unreg f w) = unreg f w /\
  (f ∉ _activeFeatures w -> unreg f w = w) /\
  (f ∉ _activeFeatures (unreg f (reg f (reg f w)))) /\
  (NoDup (_activeFeatures w) -> NoDup (_activeFeatures (reg f w))).
Proof.
  simpl. unfold registerFeature, unregisterFeature, modify, world_of. simpl.
  repeat split.
  - unfold set_activeFeatures. simpl.
    rewrite (Set_add_present f (Set_add f _)) by apply Set_add_elem.
    reflexivity.
  - unfold set_activeFeatures. simpl.
    rewrite (Set_delete_absent f (Set_delete f _)) by apply Set_delete_not_elem.
    reflexivity.
  - intros H. rewrite Set_delete_absent by exact H.
    apply set_activeFeatures_id.
  - apply Set_delete_not_elem.
  - apply Set_add_NoDup.
Qed.

(** ** Mounting *)

Lemma this_at f this w :
  buttons w !! f = Some this -> this_ f w = (w, [], Ret this).
Proof. intros H. unfold this_, bind, get_world. rewrite H. reflexivity. Qed.

(** C10.  When the mount target is not in the document, [mount] logs the
    error and returns: the world is exactly as before (no callbacks stored,
    the feature not registered, no button rendered) and the only thing
    observed is the console message (no validation error is delivered).  On
    a feature that is not registered and has no popup, [destroy] then
    changes nothing, observes nothing and returns. *)
Theorem mount_without_target_has_no_effect
    (w : World) (f : fid) (this : GalliunButton) (options : Options) :
  buttons w !! f = Some this ->
  dom w !! elementId this = None ->
  Button_mount f options w
    = (w, [ConsoleError (not_found_message (elementId this))], Ret tt) /\
  (f ∉ _activeFeatures w -> popup this = None ->
   Button_destroy f w = (w, [], Ret tt)).
Proof.
  intros Hf Hdom. split.
  - unfold Button_mount, bind. rewrite (this_at f this w Hf). simpl.
    rewrite Hdom. reflexivity.
  - intros Hreg Hpop. unfold Button_destroy, close_if_open, bind.
    rewrite (this_at f this w Hf). simpl. rewrite Hpop. simpl.
    unfold unregisterFeature, modify. rewrite Set_delete_absent by exact Hreg.
    rewrite set_activeFeatures_id. reflexivity.
Qed.

(** ** Error normalisation *)

Lemma getProp_prop v k w :
  nullish v = false -> getProp v k w = (w, [], Ret (prop v k)).
Proof. destruct v; simpl; intros H; try discriminate H; reflexivity. Qed.

Lemma buttons_closed_popup p w : buttons (closed_popup p w) = buttons w.
Proof. destruct p; reflexivity. Qed.

Lemma registry_closed_popup p w :
  _activeFeatures (closed_popup p w) = _activeFeatures w.
Proof. destruct p; reflexivity. Qed.

Lemma intervals_closed_popup p w : intervals (closed_popup p w) = intervals w.
Proof. destruct p; reflexivity. Qed.

Lemma dom_closed_popup p w : dom (closed_popup p w) = dom w.
Proof. destruct p; reflexivity. Qed.

Lemma length_windows_closed_popup p w :
  length (windows (closed_popup p w)) = length (windows w).
Proof. destruct p; simpl; [apply length_insert | reflexivity]. Qed.


Lemma handleError_at f this cb error w :
  buttons w !! f = Some this ->
  onError (callbacks this) = Some cb ->
  nullish error = false ->
  Button_handleError f error w =
  match cb with
  | Returns =>
      (closed_popup (popup this) w,
       [Call f OnError [standardError (productId this) (now w) error]],
       Ret tt)
  | Throws =>
      (w, [Call f OnError [standardError (productId this) (now w) error]],
       Throw (HostError f OnError))
  end.
Proof.
  intros Hf Hcb Hn.
  unfold Button_handleError, close_if_popup, standardError, closed_popup, js_or.
  unfold this_, call, popup_close;
    unfold bind, get_world, Date_now, emit, ret, throw, modify.
  rewrite !Hf, Hcb.
  destruct error; try discriminate Hn; simpl;
    try destruct (truthy (default VUndefined (assoc "message" fields)));
    destruct cb; simpl; rewrite ?Hf; try reflexivity;
    destruct (popup this); reflexivity.
Qed.

Ltac unfold_monad :=
  unfold this_, call_opt, call, update_this, popup_close, registerFeature,
    unregisterFeature, window_open, setInterval, clearInterval;
  unfold bind, get_world, Date_now, emit, ret, throw, modify.

Lemma close_if_open_at f this w :
  buttons w !! f = Some this ->
  close_if_open f w = (closed_if_open (popup this) w, [], Ret tt).
Proof.
  intros H. unfold close_if_open. unfold_monad. rewrite H.
  unfold closed_if_open. destruct (popup this) as [h|]; [|reflexivity].
  destruct (is_closed w h); reflexivity.
Qed.

Lemma destroy_at f this w :
  buttons w !! f = Some this ->
  Button_destroy f w =
  (set_activeFeatures (Set_delete f (_activeFeatures w))
     (closed_if_open (popup this) w), [], Ret tt).
Proof.
  intros H. unfold Button_destroy. unfold bind at 1.
  rewrite (close_if_open_at f this w H). unfold unregisterFeature, modify.
  destruct (popup this) as [h|]; simpl; [|reflexivity].
  destruct (is_closed w h); reflexivity.
Qed.

Lemma mount_missing_productId_at f this c options w :
  buttons w !! f = Some this ->
  dom w !! elementId this = Some c ->
  truthy (o_productId options) = false ->
  Button_mount f options w =
  Button_handleError f validation_error (mount_registered f options w).
Proof.
  intros Hf Hdom Hpid. unfold Button_mount. unfold_monad.
  rewrite Hf, Hdom, Hpid. simpl.
  fold validation_error. fold (mount_callbacks options).
  fold (mount_registered f options w).
  destruct (Button_handleError f validation_error (mount_registered f options w))
    as [[w' t'] r']. reflexivity.
Qed.

Lemma lookup_snoc {A} (l : list A) (x : A) : (l ++ [x]) !! length l = Some x.
Proof. apply list_lookup_middle. reflexivity. Qed.

Lemma is_closed_insert w h h' :
  is_closed (set_windows (<[h' := true]> (windows w)) w) h
  = is_closed w h || bool_decide (h = h').
Proof.
  unfold is_closed. simpl. destruct (decide (h = h')) as [->|Hne].
  - rewrite bool_decide_eq_true_2 by reflexivity.
    destruct (decide (h' < length (windows w))) as [Hlt|Hge].
    + rewrite list_lookup_insert_eq by exact Hlt. simpl.
      destruct (default true (windows w !! h')); reflexivity.
    + rewrite list_insert_ge by lia.
      assert (Hn : windows w !! h' = None) by (apply lookup_ge_None_2; lia).
      rewrite Hn. reflexivity.
  - rewrite bool_decide_eq_false_2 by exact Hne.
    rewrite list_lookup_insert_ne by (intros ->; apply Hne; reflexivity).
    rewrite orb_false_r. reflexivity.
Qed.

Lemma openPopup_blocked_at f this cb pid r w :
  buttons w !! f = Some this ->
  onError (callbacks this) = Some cb ->
  open_blocked w (popup this) r = true ->
  trace_of (Button_openPopup f pid r w) =
    [WindowOpen (popup_url this pid) "GalliunPaymentPopup" (popup_features w);
     Call f OnError
       [standardError (productId this) (now w) popup_blocked_error]] /\
  intervals (world_of (Button_openPopup f pid r w)) = intervals w.
Proof.
  intros Hf Hcb Hb.
  unfold Button_openPopup, close_if_open, popup_gone, Button_handleError,
    close_if_popup.
  unfold_monad. rewrite Hf. unfold open_blocked, closed_if_open in Hb.
  unfold popup_url, standardError, popup_blocked_error.
  destruct (popup this) as [h0|]; [destruct (is_closed w h0) eqn:E|];
    destruct r as [|c|h]; try (simpl in Hb; subst c); destruct cb;
    unfold js_or, is_closed in *; simpl in *;
    repeat first [rewrite list_lookup_alter_eq | rewrite Hf | rewrite Hcb
                 | rewrite lookup_snoc | rewrite Hb | progress simpl].
  all: split; reflexivity.
Qed.

Lemma openPopup_opened_at f this pid r w :
  buttons w !! f = Some this ->
  open_blocked w (popup this) r = false ->
  trace_of (Button_openPopup f pid r w) =
    [WindowOpen (popup_url this pid) "GalliunPaymentPopup" (popup_features w)]
  /\ intervals (world_of (Button_openPopup f pid r w))
     = intervals w ++ [Some f]
  /\ outcome_of (Button_openPopup f pid r w) = Ret tt.
Proof.
  intros Hf Hb.
  unfold Button_openPopup, close_if_open, popup_gone.
  unfold_monad. rewrite Hf. unfold open_blocked, closed_if_open in Hb.
  unfold popup_url.
  destruct (popup this) as [h0|]; [destruct (is_closed w h0) eqn:E|];
    destruct r as [|c|h]; try discriminate Hb; try (simpl in Hb; subst c);
    unfold is_closed in *; simpl in *;
    repeat first [rewrite list_lookup_alter_eq | rewrite Hf
                 | rewrite lookup_snoc | rewrite Hb | progress simpl].
  all: repeat split; reflexivity.
Qed.

(** ** Validation and blocked popups *)

(** C6.  When the mount target exists and the options carry no product id
    (or a falsy one) and an [onError] callback, [mount] calls [onError]
    once, with an error of type [validation_error] and code
    [parameter_missing]; it opens no window and starts no timer; the
    feature is in the registry afterwards (it is registered before the
    check); and [destroy] called next returns normally and leaves the
    feature out of the registry. *)
Theorem mount_without_productId_reports_validation_error
    (w : World) (f : fid) (this : GalliunButton) (c : Container)
    (options : Options) (cb : callback) :
  buttons w !! f = Some this ->
  dom w !! elementId this = Some c ->
  truthy (o_productId options) = false ->
  o_onError options = Some cb ->
  let r := Button_mount f options w in
  let err := standardError (productId this) (now w) validation_error in
  trace_of r = [Call f OnError [err]] /\
  prop err "type" = VStr "validation_error" /\
  prop err "code" = VStr "parameter_missing" /\
  List.filter is_window_open (trace_of r) = [] /\
  length (windows (world_of r)) = length (windows w) /\
  intervals (world_of r) = intervals w /\
  dom (world_of r) = dom w /\
  f ∈ _activeFeatures (world_of r) /\
  outcome_of (Button_destroy f (world_of r)) = Ret tt /\
  f ∉ _activeFeatures (world_of (Button_destroy f (world_of r))).
Proof.
  intros Hf Hdom Hpid Hcb. simpl.
  rewrite (mount_missing_productId_at f this c options w Hf Hdom Hpid).
  assert (Hf' : buttons (mount_registered f options w) !! f
                = Some (set_callbacks (mount_callbacks options) this)).
  { simpl. rewrite list_lookup_alter_eq, Hf. reflexivity. }
  rewrite (handleError_at f _ cb validation_error _ Hf')
    by (try exact Hcb; reflexivity).
  assert (Hin : f ∈ Set_add f (_activeFeatures w)) by apply Set_add_elem.
  set (this' := set_callbacks (mount_callbacks options) this) in *.
  destruct cb; cbn [world_of trace_of outcome_of fst snd].
  - assert (HfW : buttons (closed_popup (popup this')
                             (mount_registered f options w)) !! f = Some this')
      by (rewrite buttons_closed_popup; exact Hf').
    rewrite (destroy_at f _ _ HfW).
    rewrite length_windows_closed_popup, intervals_closed_popup,
      dom_closed_popup, registry_closed_popup.
    repeat split; try reflexivity; try exact Hin.
    simpl. apply Set_delete_not_elem.
  - rewrite (destroy_at f _ _ Hf').
    repeat split; try reflexivity; try exact Hin.
    simpl. apply Set_delete_not_elem.
Qed.

Lemma mount_without_productId_witness :
  trace_of (Button_mount 0 (example_options VUndefined) example_world)
  = [Call 0 OnError
       [standardError VUndefined 1000%Z validation_error]].
Proof.
  exact (proj1 (mount_without_productId_reports_validation_error
                  example_world 0 example_button HostContent
                  (example_options VUndefined) Returns
                  eq_refl eq_refl eq_refl eq_refl)).
Defined.

(** C7.  When [window.open] returns [null] or a window that reports
    closed, [openPopup] calls [onError] (if one was supplied at mount)
    once, with an error of type [popup_error] and code [popup_blocked], and
    starts no timer: the timers are those of before the call. *)
Theorem blocked_popup_reports_error_and_starts_no_timer
    (w : World) (f : fid) (this : GalliunButton) (pid : jsval)
    (r : open_result) (cb : callback) :
  buttons w !! f = Some this ->
  onError (callbacks this) = Some cb ->
  open_blocked w (popup this) r = true ->
  let res := Button_openPopup f pid r w in
  let err := standardError (productId this) (now w) popup_blocked_error in
  trace_of res =
    [WindowOpen (popup_url this pid) "GalliunPaymentPopup" (popup_features w);
     Call f OnError [err]] /\
  prop err "type" = VStr "popup_error" /\
  prop err "code" = VStr "popup_blocked" /\
  intervals (world_of res) = intervals w.
Proof.
  intros Hf Hcb Hb. simpl.
  destruct (openPopup_blocked_at f this cb pid r w Hf Hcb Hb) as [Ht Hi].
  repeat split; [exact Ht | exact Hi].
Qed.

Lemma blocked_popup_witness :
  intervals (world_of (Button_openPopup 0 (VStr "p1") OpenNull mounted_world))
  = intervals mounted_world.
Proof.
  exact (proj2 (proj2 (proj2
    (blocked_popup_reports_error_and_starts_no_timer
       mounted_world 0 mounted_button (VStr "p1") OpenNull Returns
       eq_refl eq_refl eq_refl)))).
Defined.

Lemma blocked_popup_witness_closed_handle :
  trace_of (Button_openPopup 0 (VStr "p1") (OpenNew true) mounted_world) =
    [WindowOpen "https://pay.example/popup-payment?productId=p1"
       "GalliunPaymentPopup"
       "width=400,height=600,left=312,top=84,resizable=yes,scrollbars=yes";
     Call 0 OnError
       [standardError (VStr "p1") 1000%Z popup_blocked_error]].
Proof. reflexivity. Qed.

(** C9, as stated, fails on a feature that was mounted before: the second
    [mount], without product id, reports the product id stored by the
    first. *)
Lemma remount_reports_earlier_productId :
  buttons mounted_world !! 0 = Some mounted_button /\
  trace_of (Button_mount 0 (example_options VUndefined) mounted_world)
  = [Call 0 OnError [standardError (VStr "p1") 1000%Z validation_error]] /\
  prop (prop (standardError (VStr "p1") 1000%Z validation_error) "metadata")
    "productId" = VStr "p1" /\
  VStr "p1" <> VUndefined.
Proof. repeat split; try reflexivity. discriminate. Qed.

(** C9 (amended).  When [mount] is called without product id, the error
    given to [onError] carries in [metadata.productId] the product id
    stored in the feature at that time, which [mount] has not updated: it
    is [undefined] on a newly created feature. *)
Theorem validation_error_carries_stored_productId
    (w : World) (f : fid) (this : GalliunButton) (c : Container)
    (options : Options) (cb : callback) :
  buttons w !! f = Some this ->
  dom w !! elementId this = Some c ->
  truthy (o_productId options) = false ->
  o_onError options = Some cb ->
  let err := standardError (productId this) (now w) validation_error in
  trace_of (Button_mount f options w) = [Call f OnError [err]] /\
  prop (prop err "metadata") "productId" = productId this /\
  (forall id url, this = GalliunButton_new id url ->
     prop (prop err "metadata") "productId" = VUndefined).
Proof.
  intros Hf Hdom Hpid Hcb. simpl.
  rewrite (mount_missing_productId_at f this c options w Hf Hdom Hpid).
  assert (Hf' : buttons (mount_registered f options w) !! f
                = Some (set_callbacks (mount_callbacks options) this)).
  { simpl. rewrite list_lookup_alter_eq, Hf. reflexivity. }
  rewrite (handleError_at f _ cb validation_error _ Hf')
    by (try exact Hcb; reflexivity).
  repeat split.
  - destruct cb; reflexivity.
  - intros id url ->. reflexivity.
Qed.

Lemma validation_error_witness :
  prop (prop (standardError (productId example_button) (now example_world)
                validation_error) "metadata") "productId" = VUndefined.
Proof.
  exact (proj2 (proj2 (validation_error_carries_stored_productId
                  example_world 0 example_button HostContent
                  (example_options VUndefined) Returns
                  eq_refl eq_refl eq_refl eq_refl))
           "pay" "https://pay.example" eq_refl).
Defined.

Lemma mount_without_target_witness :
  Button_mount 0 (example_options (VStr "p1")) detached_world
  = (detached_world, [ConsoleError (not_found_message "missing")], Ret tt).
Proof.
  exact (proj1 (mount_without_target_has_no_effect detached_world 0
                  (GalliunButton_new "missing" "https://pay.example")
                  (example_options (VStr "p1")) eq_refl eq_refl)).
Defined.

(** ** Message translation *)

Lemma handleMessage_success_at f this cb m w :
  buttons w !! f = Some this ->
  onSuccess (callbacks this) = Some cb ->
  prop (data m) "type" = VStr "GALLIUN_SUCCESS" ->
  nullish (prop (data m) "data") = false ->
  Button_handleMessage f m w =
  match cb with
  | Returns =>
      (closed_popup (popup this) w,
       [Call f OnSuccess [success_result (prop (data m) "data")]], Ret tt)
  | Throws =>
      (w, [Call f OnSuccess [success_result (prop (data m) "data")]],
       Throw (HostError f OnSuccess))
  end.
Proof.
  intros Hf Hcb Hty Hd.
  unfold Button_handleMessage, close_if_popup, success_result, closed_popup.
  unfold getProp. unfold_monad.
  destruct (data m) as [| | | | |fields]; try discriminate Hty.
  simpl in Hty, Hd. simpl. rewrite Hty. simpl. rewrite Hf. simpl. rewrite Hcb.
  destruct (default VUndefined (assoc "data" fields)); try discriminate Hd;
    destruct cb; simpl; rewrite ?Hf; try reflexivity;
    destruct (popup this); reflexivity.
Qed.

(** C3, as stated, fails when the payload names another product than the
    one the feature was mounted with: the result carries the payload's. *)
Lemma success_result_carries_payload_productId :
  buttons mounted_world !! 0 = Some mounted_button /\
  productId mounted_button = VStr "p1" /\
  trace_of (Button_handleMessage 0
              (success_message "https://pay.example" (example_payload "p2"))
              mounted_world)
  = [Call 0 OnSuccess [success_result (example_payload "p2")]] /\
  prop (prop (success_result (example_payload "p2")) "metadata") "productId"
  = VStr "p2" /\
  VStr "p2" <> productId mounted_button.
Proof. repeat split; try reflexivity. discriminate. Qed.

(** C3 (amended).  On a feature with an [onSuccess] callback, handling a
    [GALLIUN_SUCCESS] message whose [data] is a value with properties calls
    [onSuccess] exactly once, with the result built from [data] alone:
    [metadata.productId] is [data.productId].  If the callback returns, the
    popup of the feature, if any, is then closed, and nothing else changes;
    if it raises, the exception leaves the handler and the popup is left as
    it is.  The same holds for the router's handler when the message comes
    from the trusted origin and the feature is the only one registered. *)
Theorem success_message_invokes_onSuccess_once
    (w : World) (f : fid) (this : GalliunButton) (cb : callback)
    (m : MessageEvent) :
  buttons w !! f = Some this ->
  onSuccess (callbacks this) = Some cb ->
  prop (data m) "type" = VStr "GALLIUN_SUCCESS" ->
  nullish (prop (data m) "data") = false ->
  let d := prop (data m) "data" in
  let expected :=
    match cb with
    | Returns =>
        (closed_popup (popup this) w, [Call f OnSuccess [success_result d]],
         Ret tt)
    | Throws =>
        (w, [Call f OnSuccess [success_result d]],
         Throw (HostError f OnSuccess))
    end in
  Button_handleMessage f m w = expected /\
  prop (prop (success_result d) "metadata") "productId" = prop d "productId" /\
  prop (success_result d) "status" = VStr "succeeded" /\
  (origin m = popupOrigin w -> _activeFeatures w = [f] ->
   Client_handleMessage m w = expected).
Proof.
  intros Hf Hcb Hty Hd. cbv zeta.
  pose proof (handleMessage_success_at f this cb m w Hf Hcb Hty Hd) as He.
  repeat split; try exact He.
  intros Ho Hreg. unfold Client_handleMessage. unfold bind at 1.
  unfold get_world. apply String.eqb_eq in Ho. rewrite Ho, Hreg. simpl.
  unfold bind, get_world, ret. simpl.
  rewrite Hreg, decide_True by (apply list_elem_of_singleton; reflexivity).
  rewrite He. destruct cb; simpl; rewrite ?app_nil_r; reflexivity.
Qed.

Lemma success_message_witness :
  Button_handleMessage 0
    (success_message "https://pay.example" (example_payload "p1"))
    mounted_world
  = (mounted_world, [Call 0 OnSuccess [success_result (example_payload "p1")]],
     Ret tt).
Proof.
  exact (proj1 (success_message_invokes_onSuccess_once mounted_world 0
                  mounted_button Returns
                  (success_message "https://pay.example" (example_payload "p1"))
                  eq_refl eq_refl eq_refl eq_refl)).
Defined.

(** ** Destroy and the closure poll *)


Lemma pollTick_closed_at f this h t w :
  buttons w !! f = Some this ->
  popup this = Some h ->
  is_closed w h = true ->
  let w' := set_intervals (<[t := None]> (intervals w)) w in
  let tr := match onClose (callbacks this) with
            | Some _ => [Call f OnClose []]
            | None => []
            end in
  world_of (pollTick f t w) = w' /\ trace_of (pollTick f t w) = tr.
Proof.
  intros Hf Hp Hc. unfold pollTick, popup_gone. unfold_monad.
  rewrite Hf, Hp. simpl. rewrite Hc. simpl. rewrite Hf.
  destruct (onClose (callbacks this)) as [[|]|]; split; reflexivity.
Qed.



(** ** Delivery by the router *)

Lemma set_windows_id w : set_windows (windows w) w = w.
Proof. destruct w. reflexivity. Qed.

Lemma oblivious_const {A} (t : list obs) (o : outcome A) :
  oblivious (fun w => (w, t, o)).
Proof. intros w ws1 ws2. exists ws1, ws2, t, o. split; reflexivity. Qed.

Lemma oblivious_bind {A B} (m : M A) (k : A -> M B) :
  oblivious m -> (forall a, oblivious (k a)) -> oblivious (bind m k).
Proof.
  intros Hm Hk w ws1 ws2.
  destruct (Hm w ws1 ws2) as (ws1' & ws2' & t & o & E1 & E2).
  unfold bind. rewrite E1, E2. destruct o as [a|e].
  - destruct (Hk a w ws1' ws2') as (ws1'' & ws2'' & t' & o' & E1' & E2').
    rewrite E1', E2'. exists ws1'', ws2'', (t ++ t'), o'. split; reflexivity.
  - exists ws1', ws2', t, (Throw e). split; reflexivity.
Qed.

Lemma oblivious_this f : oblivious (this_ f).
Proof.
  intros w ws1 ws2. unfold this_, bind, get_world, ret, throw. simpl.
  destruct (buttons w !! f) as [b|].
  - exists ws1, ws2, [], (Ret b). split; reflexivity.
  - exists ws1, ws2, [], (Throw DanglingReference). split; reflexivity.
Qed.

Lemma oblivious_Date_now : oblivious Date_now.
Proof.
  intros w ws1 ws2. exists ws1, ws2, [], (Ret (now w)). split; reflexivity.
Qed.

Lemma oblivious_popup_close h : oblivious (popup_close h).
Proof.
  intros w ws1 ws2.
  exists (<[h := true]> ws1), (<[h := true]> ws2), [], (Ret tt).
  split; reflexivity.
Qed.

Ltac oblivious_step :=
  lazymatch goal with
  | |- oblivious (bind _ _) => apply oblivious_bind; [|intros ?]
  | |- oblivious (ret _) => apply oblivious_const
  | |- oblivious (throw _) => apply oblivious_const
  | |- oblivious (emit _) => apply oblivious_const
  | |- oblivious (this_ _) => apply oblivious_this
  | |- oblivious Date_now => apply oblivious_Date_now
  | |- oblivious (popup_close _) => apply oblivious_popup_close
  | |- oblivious (match ?x with _ => _ end) => destruct x
  end.

Lemma oblivious_handleError f error : oblivious (Button_handleError f error).
Proof.
  unfold Button_handleError, close_if_popup.
  repeat (unfold getProp, call; oblivious_step).
Qed.

Lemma oblivious_handleMessage f m : oblivious (Button_handleMessage f m).
Proof.
  unfold Button_handleMessage, close_if_popup.
  repeat (unfold getProp, call_opt, call; oblivious_step);
    apply oblivious_handleError.
Qed.

Lemma oblivious_run {A} (m : M A) w ws :
  oblivious m ->
  exists ws', m (set_windows ws w)
              = (set_windows ws' w, trace_of (m w), outcome_of (m w)).
Proof.
  intros Hm. destruct (Hm w ws (windows w)) as (ws1 & ws2 & t & o & E1 & E2).
  rewrite set_windows_id in E2. exists ws1. rewrite E1, E2. reflexivity.
Qed.

Lemma forEach_oblivious body members :
  (forall x, oblivious (body x)) ->
  forall w ws,
    (forall x, x ∈ members -> x ∈ _activeFeatures w) ->
    exists ws',
      Set_forEach members body (set_windows ws w) =
      (set_windows ws' w,
       flat_map (fun x => trace_of (body x w))
         (until_raise members (fun x => raises (body x w))),
       first_raise members (fun x => outcome_of (body x w))).
Proof.
  intros Hb. induction members as [|x rest IH]; intros w ws Hin.
  - exists ws. reflexivity.
  - simpl. unfold bind at 1. unfold get_world. simpl.
    rewrite decide_True by (apply Hin; left).
    destruct (oblivious_run (body x) w ws (Hb x)) as [ws1 E1].
    unfold bind, raises. rewrite E1.
    destruct (outcome_of (body x w)) as [[]|e].
    + destruct (IH w ws1) as [ws2 E2].
      { intros y Hy. apply Hin. right. exact Hy. }
      rewrite E2. exists ws2. reflexivity.
    + exists ws1. simpl. rewrite app_nil_r. reflexivity.
Qed.

Ltac mute_all :=
  repeat (unfold_model; mute_step);
  try (apply Nat.eqb_neq; congruence).

Lemma handleError_calls_own f g error :
  g <> f -> mute (is_call_of f) (Button_handleError g error).
Proof. intros Hne. unfold Button_handleError. mute_all. Qed.

Lemma handleMessage_calls_own f g m :
  g <> f -> mute (is_call_of f) (Button_handleMessage g m).
Proof.
  intros Hne. unfold Button_handleMessage. mute_all.
  all: apply handleError_calls_own; exact Hne.
Qed.

(** C5, as stated, fails: the exception raised by the first feature's
    callback leaves the router's handler, and the second feature, whose
    own handler would call its [onLoaded], is never reached. *)
Lemma exception_stops_delivery :
  _activeFeatures two_button_world = [0; 1] /\
  origin loaded_message = popupOrigin two_button_world /\
  Client_handleMessage loaded_message two_button_world
  = (two_button_world, [Call 0 OnLoaded []], Throw (HostError 0 OnLoaded)) /\
  Button_handleMessage 1 loaded_message two_button_world
  = (two_button_world, [Call 1 OnLoaded []], Ret tt).
Proof. repeat split; reflexivity. Qed.

(** C5 (amended).  For a message from the trusted origin the router calls
    the handler of the registered features one after the other, in the
    order of registration, up to and including the first whose handler
    raises: what is observed is what these handlers observe, in that
    order.  When no handler raises, these are all the registered features
    and the router returns normally.  When one raises, its exception
    leaves the router's handler, and no callback of a feature that was not
    reached is called: delivery is not isolated. *)
Theorem router_delivers_in_order_until_a_handler_raises
    (w : World) (m : MessageEvent) :
  origin m = popupOrigin w ->
  let deliver := fun x => Button_handleMessage x m w in
  let reached :=
    until_raise (_activeFeatures w) (fun x => raises (deliver x)) in
  let r := Client_handleMessage m w in
  trace_of r = flat_map (fun x => trace_of (deliver x)) reached /\
  outcome_of r
    = first_raise (_activeFeatures w) (fun x => outcome_of (deliver x)) /\
  ((forall x, x ∈ _activeFeatures w -> raises (deliver x) = false) ->
   reached = _activeFeatures w /\ outcome_of r = Ret tt) /\
  (forall x, x ∉ reached -> List.filter (is_call_of x) (trace_of r) = []).
Proof.
  intros Ho. cbv zeta.
  assert (E : exists ws',
    Client_handleMessage m w =
    (set_windows ws' w,
     flat_map (fun x => trace_of (Button_handleMessage x m w))
       (until_raise (_activeFeatures w)
          (fun x => raises (Button_handleMessage x m w))),
     first_raise (_activeFeatures w)
       (fun x => outcome_of (Button_handleMessage x m w)))).
  { unfold Client_handleMessage. unfold bind at 1. unfold get_world.
    apply String.eqb_eq in Ho. rewrite Ho. simpl.
    destruct (forEach_oblivious (fun x => Button_handleMessage x m)
                (_activeFeatures w) (fun x => oblivious_handleMessage x m)
                w (windows w) (fun x H => H)) as [ws' E].
    rewrite set_windows_id in E. rewrite E. exists ws'. reflexivity. }
  destruct E as [ws' E]. rewrite E. cbn [trace_of outcome_of fst snd].
  split; [reflexivity|]. split; [reflexivity|]. split.
  - intros Hnone. clear E.
    induction (_activeFeatures w) as [|x l IH]; [split; reflexivity|].
    simpl. pose proof (Hnone x ltac:(left)) as Hx. rewrite Hx.
    unfold raises in Hx.
    destruct (outcome_of (Button_handleMessage x m w)); [|discriminate Hx].
    destruct IH as [IH1 IH2].
    { intros y Hy. apply Hnone. right. exact Hy. }
    rewrite IH1. split; [reflexivity | exact IH2].
  - intros x Hx. clear E.
    induction (until_raise _ _) as [|y l IH]; [reflexivity|].
    simpl. rewrite List.filter_app.
    apply not_elem_of_cons in Hx. destruct Hx as [Hne Hx].
    rewrite (handleMessage_calls_own x y m) by congruence.
    apply IH, Hx.
Qed.

Lemma router_delivery_witness :
  trace_of (Client_handleMessage loaded_message two_button_world)
  = [Call 0 OnLoaded []].
Proof.
  exact (proj1 (router_delivers_in_order_until_a_handler_raises
                  two_button_world loaded_message eq_refl)).
Defined.

(** ** Terminal callbacks per payment attempt *)

Lemma terminal_calls_app f t1 t2 :
  terminal_calls f (t1 ++ t2) = terminal_calls f t1 + terminal_calls f t2.
Proof. unfold terminal_calls. rewrite List.filter_app. apply length_app. Qed.

Lemma mute_weaken {A} (P Q : obs -> bool) (m : M A) :
  (forall o, P o = true -> Q o = true) -> mute Q m -> mute P m.
Proof.
  intros HPQ Hm w. specialize (Hm w).
  induction (trace_of (m w)) as [|o t IH]; [reflexivity|].
  simpl in *. destruct (Q o) eqn:EQ; [discriminate Hm|].
  destruct (P o) eqn:EP; [rewrite (HPQ o EP) in EQ; discriminate EQ|].
  apply IH, Hm.
Qed.

Lemma is_terminal_is_call f o : is_terminal f o = true -> is_call_of f o = true.
Proof. destruct o as [g [] args| |]; simpl; intros H; congruence. Qed.

Lemma mute_bind_ret {A B} P (a : A) (k : A -> M B) :
  mute P (k a) -> mute P (bind (ret a) k).
Proof.
  intros H w. specialize (H w). unfold bind, ret, trace_of in *.
  destruct (k a w) as [[w2 t2] r]. exact H.
Qed.

Lemma mute_bind_throw {A B} P e (k : A -> M B) : mute P (bind (throw e) k).
Proof. intros w. reflexivity. Qed.

Lemma at_most_one_emit P o : at_most_one P (emit o).
Proof. intros w. simpl. destruct (P o); simpl; lia. Qed.

Ltac bound_step :=
  lazymatch goal with
  | |- at_most_one _ (bind (emit _) _) =>
      apply at_most_one_bind_r; [apply at_most_one_emit | intros ?]
  | |- at_most_one _ (bind _ _) =>
      first [ apply at_most_one_bind_l; [solve [mute_all] | intros ?]
            | apply at_most_one_bind_r; [| intros ?; solve [mute_all]] ]
  | |- at_most_one _ (match ?x with _ => _ end) => destruct x
  | |- at_most_one _ _ => apply mute_at_most_one; solve [mute_all]
  end.

Ltac bound_all := repeat (unfold_model; first [bound_step | mute_step]).

Lemma handleError_at_most_one f g error :
  at_most_one (is_terminal f) (Button_handleError g error).
Proof. unfold Button_handleError. bound_all. Qed.

Lemma handleMessage_at_most_one f g m :
  at_most_one (is_terminal f) (Button_handleMessage g m).
Proof.
  unfold Button_handleMessage. bound_all.
  all: apply handleError_at_most_one.
Qed.

Lemma forEach_at_most_one P f members body :
  NoDup members ->
  (forall x, x <> f -> mute P (body x)) ->
  at_most_one P (body f) ->
  at_most_one P (Set_forEach members body).
Proof.
  intros Hnd Hother Hf. induction Hnd as [|x rest Hx Hnd IH]; simpl.
  - apply mute_at_most_one, mute_ret.
  - apply at_most_one_bind_l; [apply mute_get_world | intros w'].
    destruct (decide (x = f)) as [->|Hne].
    + apply at_most_one_bind_r.
      * destruct (decide (f ∈ _activeFeatures w'));
          [exact Hf | apply mute_at_most_one, mute_ret].
      * intros _. clear IH. induction rest as [|y rest IH]; simpl.
        -- apply mute_ret.
        -- apply not_elem_of_cons in Hx. destruct Hx as [Hyf Hx].
           apply NoDup_cons in Hnd. destruct Hnd as [_ Hnd].
           apply mute_bind; [apply mute_get_world | intros w''].
           apply mute_bind; [|intros _; apply IH; assumption].
           destruct (decide (y ∈ _activeFeatures w''));
             [apply Hother; congruence | apply mute_ret].
    + apply at_most_one_bind_l; [|intros _; exact IH].
      destruct (decide (x ∈ _activeFeatures w'));
        [apply Hother, Hne | apply mute_ret].
Qed.

Lemma mount_calls_own f g options :
  g <> f -> mute (is_call_of f) (Button_mount g options).
Proof.
  intros Hne. unfold Button_mount. mute_all.
  all: apply handleError_calls_own; exact Hne.
Qed.

Lemma openPopup_calls_own f g pid r :
  g <> f -> mute (is_call_of f) (Button_openPopup g pid r).
Proof.
  intros Hne. unfold Button_openPopup. mute_all.
  all: apply handleError_calls_own; exact Hne.
Qed.

Lemma destroy_mute P f : mute P (Button_destroy f).
Proof. unfold Button_destroy. mute_all. Qed.

Lemma pollTick_no_terminal f g t : mute (is_terminal f) (pollTick g t).
Proof. unfold pollTick. mute_all. Qed.

Lemma mount_at_most_one f g options :
  at_most_one (is_terminal f) (Button_mount g options).
Proof.
  unfold Button_mount. bound_all. all: apply handleError_at_most_one.
Qed.

Lemma openPopup_at_most_one f g pid r :
  at_most_one (is_terminal f) (Button_openPopup g pid r).
Proof.
  unfold Button_openPopup. bound_all. all: apply handleError_at_most_one.
Qed.

Lemma at_most_one_at {A} P (m : M A) w :
  at_most_one P m -> length (List.filter P (trace_of (m w))) <= 1.
Proof. intros H. apply H. Qed.

Lemma step_at_most_one f e w :
  registry_is_set w ->
  terminal_calls f (trace_of (step e w)) <= 1.
Proof.
  intros Hnd. unfold terminal_calls.
  destruct e as [id|g options|g| |id r|m|t|h|ms]; unfold step.
  - apply at_most_one_at, mute_at_most_one. mute_all.
  - apply at_most_one_at, mount_at_most_one.
  - apply at_most_one_at, mute_at_most_one, destroy_mute.
  - apply at_most_one_at, mute_at_most_one. unfold Client_destroy. mute_all.
    apply destroy_mute.
  - apply at_most_one_at.
    apply at_most_one_bind_l; [apply mute_get_world | intros w'].
    destruct (dom w' !! id) as [[|b]|]; try (apply mute_at_most_one, mute_ret).
    apply openPopup_at_most_one.
  - rewrite trace_bind. simpl. destruct (listening w); [|simpl; lia].
    unfold Client_handleMessage. rewrite trace_bind. simpl.
    destruct (negb _); [simpl; lia|].
    apply at_most_one_at.
    apply (forEach_at_most_one _ f); [exact Hnd | |].
    + intros x Hx. apply (mute_weaken _ _ _ (is_terminal_is_call f)).
      apply handleMessage_calls_own, Hx.
    + apply handleMessage_at_most_one.
  - apply at_most_one_at, mute_at_most_one. mute_all.
    apply pollTick_no_terminal.
  - apply at_most_one_at, mute_at_most_one. mute_all.
  - apply at_most_one_at, mute_at_most_one. mute_all.
Qed.

Lemma step_registry_is_set e : preserves registry_is_set (step e).
Proof.
  assert (He : forall g error,
             preserves registry_is_set (Button_handleError g error)).
  { intros g error. unfold Button_handleError. preserves_all. }
  assert (Hd : forall g, preserves registry_is_set (Button_destroy g)).
  { intros g. unfold Button_destroy. preserves_all.
    apply Set_delete_NoDup. assumption. }
  destruct e; simpl;
    unfold Button_mount, Button_openPopup, Client_destroy,
      Client_handleMessage, Button_handleMessage, pollTick;
    preserves_all; try apply He; try apply Hd;
    try (apply Set_add_NoDup; assumption).
  apply NoDup_nil. exact I.
Qed.

Lemma handleMessage_quiet f g m :
  terminal_message m = false ->
  mute (is_terminal f) (Button_handleMessage g m).
Proof.
  unfold terminal_message. intros H. apply orb_false_elim in H.
  destruct H as [Hs He]. unfold Button_handleMessage.
  destruct (data m) as [| |b|n|s|fields]; simpl in *;
    try apply mute_bind_throw;
    apply mute_bind_ret; cbv beta; rewrite ?Hs, ?He; simpl; mute_all.
Qed.

Lemma mute_at {A} P (m : M A) w :
  mute P m -> List.filter P (trace_of (m w)) = [].
Proof. intros H. apply H. Qed.

Lemma quiet_step_no_terminal f e w :
  quiet f w e = true -> terminal_calls f (trace_of (step e w)) = 0.
Proof.
  intros Hq. unfold terminal_calls.
  assert (Hlen : forall t : list obs, t = [] -> length t = 0)
    by (intros t ->; reflexivity).
  apply Hlen. clear Hlen.
  destruct e as [id|g options|g| |id r|m|t|h|ms]; unfold step;
    simpl in Hq.
  - apply mute_at. mute_all.
  - apply mute_at.
    apply (mute_weaken _ _ _ (is_terminal_is_call f)), mount_calls_own.
    apply negb_true_iff, Nat.eqb_neq in Hq. exact Hq.
  - apply mute_at, destroy_mute.
  - apply mute_at. unfold Client_destroy. mute_all. apply destroy_mute.
  - rewrite trace_bind. simpl.
    destruct (dom w !! id) as [[|b]|]; try reflexivity.
    apply mute_at.
    apply (mute_weaken _ _ _ (is_terminal_is_call f)), openPopup_calls_own.
    apply negb_true_iff, Nat.eqb_neq in Hq. exact Hq.
  - rewrite trace_bind. simpl. destruct (listening w); [|reflexivity].
    unfold Client_handleMessage. rewrite trace_bind.
    unfold get_world, world_of, outcome_of. simpl.
    destruct (String.eqb (origin m) (popupOrigin w)); [|reflexivity].
    simpl. rewrite andb_true_r in Hq. apply negb_true_iff in Hq.
    apply mute_at, mute_forEach. intros x. apply handleMessage_quiet, Hq.
  - rewrite trace_bind. simpl.
    destruct (intervals w !! t) as [[g|]|]; try reflexivity.
    apply mute_at, pollTick_no_terminal.
  - reflexivity.
  - reflexivity.
Qed.

Lemma quiet_until_last_bound f evs :
  forall w, registry_is_set w ->
    quiet_until_last f evs w = true ->
    terminal_calls f (snd (run evs w)) <= 1.
Proof.
  induction evs as [|e rest IH]; intros w Hnd Hq;
    [unfold terminal_calls; simpl; lia|].
  pose proof (step_at_most_one f e w Hnd) as H1.
  pose proof (step_registry_is_set e w Hnd) as Hnd1.
  pose proof (quiet_step_no_terminal f e w) as H0.
  simpl in Hq. simpl. unfold world_of, trace_of in *.
  destruct (step e w) as [[w1 t1] r1]. simpl in *.
  destruct rest as [|e' rest].
  - simpl. rewrite app_nil_r. exact H1.
  - apply andb_true_iff in Hq. destruct Hq as [Hq1 Hq2].
    specialize (IH w1 Hnd1 Hq2). specialize (H0 Hq1).
    destruct (run (e' :: rest) w1) as [w2 t2]. simpl in *.
    rewrite terminal_calls_app. lia.
Qed.

Lemma run_cons e evs w :
  run (e :: evs) w =
  (fst (run evs (world_of (step e w))),
   trace_of (step e w) ++ snd (run evs (world_of (step e w)))).
Proof.
  simpl. unfold world_of, trace_of.
  destruct (step e w) as [[w1 t1] r1]. simpl.
  destruct (run evs w1); reflexivity.
Qed.

Lemma run_registry_is_set evs :
  forall w, registry_is_set w -> registry_is_set (fst (run evs w)).
Proof.
  induction evs as [|e rest IH]; intros w Hnd; [exact Hnd|].
  pose proof (step_registry_is_set e w Hnd) as H1. simpl.
  unfold world_of in H1. destruct (step e w) as [[w1 t1] r1].
  specialize (IH w1 H1). destruct (run rest w1) as [w2 t2]. exact IH.
Qed.

Lemma new_client_registry_is_set URL_origin base page width height clock :
  registry_is_set (GalliunClient_new URL_origin base page width height clock).
Proof. apply NoDup_nil. exact I. Qed.

(** A payment attempt that is taken to end at its first terminal outcome
    (the click that opens the popup and the events that follow, up to and
    including the first terminal event) has at most one call of
    [onSuccess] or [onError] of the feature, whatever the other events
    are. *)
Theorem at_most_one_terminal_callback_per_attempt
    (w : World) (f : fid) (evs : list event) :
  registry_is_set w ->
  payment_attempt f w evs = true ->
  terminal_calls f (snd (run evs w)) <= 1.
Proof.
  intros Hnd Ha.
  destruct evs as [|[id|g options|g| |id r|m|t|h|ms] rest];
    try discriminate Ha.
  unfold payment_attempt in Ha.
  destruct (dom w !! id) as [[|b]|] eqn:Hd; try discriminate Ha.
  destruct (buttons w !! f) as [this|] eqn:Hf; try discriminate Ha.
  apply andb_true_iff in Ha. destruct Ha as [Ho Ha].
  apply Nat.eqb_eq in Ho.
  rewrite run_cons. cbn [snd]. rewrite terminal_calls_app.
  destruct (open_blocked w (popup this) r) eqn:Hb.
  - destruct rest; [|discriminate Ha].
    pose proof (step_at_most_one f (EvClick id r) w Hnd) as H1.
    change (terminal_calls f (snd (run [] (world_of (step (EvClick id r) w)))))
      with 0.
    lia.
  - pose proof (step_registry_is_set (EvClick id r) w Hnd) as Hnd1.
    pose proof (quiet_until_last_bound f rest _ Hnd1 Ha) as H2.
    assert (H0 : terminal_calls f (trace_of (step (EvClick id r) w)) = 0).
    { assert (Hstep : step (EvClick id r) w
                      = Button_openPopup f (click_productId b) r w).
      { unfold step. unfold bind at 1. unfold get_world. rewrite Hd, Ho.
        destruct (Button_openPopup f (click_productId b) r w) as [[? ?] ?].
        reflexivity. }
      destruct (openPopup_opened_at f this (click_productId b) r w Hf Hb)
        as [Ht _].
      rewrite Hstep, Ht. reflexivity. }
    lia.
Qed.

Lemma attempt_witness :
  terminal_calls 0 (snd (run example_attempt mounted_world)) <= 1.
Proof.
  exact (at_most_one_terminal_callback_per_attempt mounted_world 0
           example_attempt (NoDup_singleton 0) eq_refl).
Defined.

(** The feature keeps no record of the outcome: a terminal message that
    arrives after the attempt has ended is translated like any other. *)
Remark terminal_message_after_the_outcome_is_translated_again :
  terminal_calls 0
    (snd (run (example_attempt ++
                 [EvMessage (error_message "https://pay.example"
                               (VObj [("code", VStr "declined")]))])
            mounted_world)) = 2.
Proof. reflexivity. Qed.

(** ** Terminal callbacks and terminal events *)








(** * Further properties of the code *)

(** ** The address of the popup *)

Lemma hex_digit_unreserved (c : ascii) :
  unreserved (hex_digit (N_of_ascii c / 16)) = true /\
  unreserved (hex_digit (N_of_ascii c mod 16)) = true.
Proof. destruct c as [[] [] [] [] [] [] [] []]; split; reflexivity. Qed.

(** X1.  Whatever the product id, its encoding in the address of the popup
    is made of unreserved characters and percent signs only: none of the
    characters that delimit the parts of an address occurs in it. *)
Theorem encodeURIComponent_output_is_safe (s : string) :
  Forall (fun c => unreserved c = true \/ c = "%"%char)
    (String.list_ascii_of_string (encodeURIComponent s)) /\
  Forall (fun c => ~ In c (String.list_ascii_of_string "&=?#/+ :@"))
    (String.list_ascii_of_string (encodeURIComponent s)).
Proof.
  assert (H : Forall (fun c => unreserved c = true \/ c = "%"%char)
                (String.list_ascii_of_string (encodeURIComponent s))).
  { induction s as [|c s IH]; simpl; [constructor|].
    destruct (unreserved c) eqn:Hc; simpl.
    - constructor; [left; exact Hc | exact IH].
    - destruct (hex_digit_unreserved c) as [Hh Hl].
      constructor; [right; reflexivity|].
      constructor; [left; exact Hh|].
      constructor; [left; exact Hl | exact IH]. }
  split; [exact H|].
  eapply Forall_impl; [exact H|]. simpl.
  intros c [Hc|Hc] Hin; [|subst c].
  - repeat (destruct Hin as [<-|Hin]; [discriminate Hc|]). exact Hin.
  - repeat (destruct Hin as [Heq|Hin]; [discriminate Heq|]). exact Hin.
Qed.

Lemma hex_digit_inj (a b : N) :
  (a < 16)%N -> (b < 16)%N -> hex_digit a = hex_digit b -> a = b.
Proof.
  unfold hex_digit. intros Ha Hb H.
  apply (f_equal N_of_ascii) in H.
  destruct (a <? 10)%N eqn:Ea, (b <? 10)%N eqn:Eb;
    rewrite !N_ascii_embedding in H by lia;
    rewrite ?N.ltb_lt, ?N.ltb_ge in *; lia.
Qed.

Lemma hex_pair_inj (c1 c2 : ascii) :
  hex_digit (N_of_ascii c1 / 16) = hex_digit (N_of_ascii c2 / 16) ->
  hex_digit (N_of_ascii c1 mod 16) = hex_digit (N_of_ascii c2 mod 16) ->
  c1 = c2.
Proof.
  intros Hh Hl.
  pose proof (N_ascii_bounded c1) as B1. pose proof (N_ascii_bounded c2) as B2.
  apply hex_digit_inj in Hh;
    [| apply N.Div0.div_lt_upper_bound; lia
     | apply N.Div0.div_lt_upper_bound; lia].
  apply hex_digit_inj in Hl; [| apply N.mod_lt; lia | apply N.mod_lt; lia].
  rewrite <- (ascii_N_embedding c1), <- (ascii_N_embedding c2).
  f_equal.
  rewrite (N.div_mod (N_of_ascii c1) 16), (N.div_mod (N_of_ascii c2) 16) by lia.
  rewrite Hh, Hl. reflexivity.
Qed.

Lemma encodeURIComponent_inj (s1 s2 : string) :
  encodeURIComponent s1 = encodeURIComponent s2 -> s1 = s2.
Proof.
  revert s2. induction s1 as [|c1 s1 IH]; intros [|c2 s2] H; simpl in H.
  - reflexivity.
  - destruct (unreserved c2); discriminate H.
  - destruct (unreserved c1); discriminate H.
  - destruct (unreserved c1) eqn:H1, (unreserved c2) eqn:H2.
    + injection H as -> H. f_equal. apply IH, H.
    + injection H as -> H. discriminate H1.
    + injection H as <- H. discriminate H2.
    + injection H as Hh Hl H. f_equal; [apply hex_pair_inj | apply IH]; assumption.
Qed.

Lemma append_inj_r (p a b : string) : p +:+ a = p +:+ b -> a = b.
Proof.
  induction p as [|c p IH]; simpl; intros H; [exact H|].
  injection H as H. apply IH, H.
Qed.

(** X2.  Two product ids that differ are sent to different addresses: the
    address of the popup of a feature determines the product id. *)
Theorem distinct_productIds_give_distinct_popup_urls
    (this : GalliunButton) (a b : string) :
  a <> b -> popup_url this (VStr a) <> popup_url this (VStr b).
Proof.
  intros Hne H. apply Hne. unfold popup_url in H. simpl in H.
  apply append_inj_r, append_inj_r in H. apply encodeURIComponent_inj, H.
Qed.

Lemma distinct_popup_urls_witness :
  popup_url example_button (VStr "a b") <> popup_url example_button (VStr "a+b").
Proof.
  apply (distinct_productIds_give_distinct_popup_urls example_button
           "a b" "a+b").
  discriminate.
Defined.

(** ** Destroying a button *)

Lemma Set_delete_idem x s : Set_delete x (Set_delete x s) = Set_delete x s.
Proof. apply Set_delete_absent, Set_delete_not_elem. Qed.

Lemma closed_if_open_closed p w :
  (forall h, p = Some h -> is_closed w h = true) -> closed_if_open p w = w.
Proof.
  intros H. destruct p as [h|]; [|reflexivity].
  simpl. rewrite (H h eq_refl). reflexivity.
Qed.

Lemma is_closed_closed_if_open h w : is_closed (closed_if_open (Some h) w) h = true.
Proof.
  simpl. destruct (is_closed w h) eqn:E; [exact E|].
  rewrite is_closed_insert, bool_decide_eq_true_2 by reflexivity.
  apply orb_true_r.
Qed.

(** X3.  [destroy] calls no callback and opens nothing; called a second
    time it changes nothing.  After it the button is not registered and its
    fields are as before. *)
Theorem destroy_is_silent_and_idempotent
    (w : World) (f : fid) (this : GalliunButton) :
  buttons w !! f = Some this ->
  let w1 := world_of (Button_destroy f w) in
  Button_destroy f w = (w1, [], Ret tt) /\
  Button_destroy f w1 = (w1, [], Ret tt) /\
  (f ∉ _activeFeatures w1) /\
  buttons w1 = buttons w.
Proof.
  intros Hf. cbv zeta. rewrite (destroy_at f this w Hf). cbn [world_of fst].
  set (w1 := set_activeFeatures _ _).
  assert (Hb : buttons w1 = buttons w)
    by (unfold w1; destruct (popup this) as [h|]; simpl;
        [destruct (is_closed w h)|]; reflexivity).
  assert (Hf1 : buttons w1 !! f = Some this) by (rewrite Hb; exact Hf).
  split; [reflexivity|]. split.
  - rewrite (destroy_at f this w1 Hf1).
    rewrite closed_if_open_closed.
    + unfold w1 at 1. cbn [_activeFeatures set_activeFeatures].
      rewrite Set_delete_idem. reflexivity.
    + intros h Hp. unfold w1. rewrite Hp.
      apply (is_closed_closed_if_open h w).
  - split; [apply Set_delete_not_elem | exact Hb].
Qed.

Lemma destroy_twice_witness :
  Button_destroy 0 (world_of (Button_destroy 0 opened_world))
  = (world_of (Button_destroy 0 opened_world), [], Ret tt).
Proof.
  exact (proj1 (proj2 (destroy_is_silent_and_idempotent opened_world 0
                         (set_popup (Some 0) mounted_button) eq_refl))).
Defined.

(** ** What a message can do *)

Lemma only_closes_refl w : only_closes w w.
Proof. repeat split; auto. Qed.

Lemma only_closes_close w0 w h :
  only_closes w0 w ->
  only_closes w0 (set_windows (<[h := true]> (windows w)) w).
Proof.
  intros (Hb & Hr & Hi & Hd & Hl & Hlen & Hc). repeat split; try assumption.
  - simpl. rewrite length_insert. exact Hlen.
  - intros h' H'. rewrite is_closed_insert, (Hc h' H'). reflexivity.
Qed.

Lemma handleError_only_closes w0 f error :
  preserves (only_closes w0) (Button_handleError f error).
Proof.
  unfold Button_handleError. preserves_all.
  all: apply only_closes_close; assumption.
Qed.

Lemma handleMessage_only_closes w0 f m :
  preserves (only_closes w0) (Button_handleMessage f m).
Proof.
  unfold Button_handleMessage. preserves_all.
  all: try apply handleError_only_closes.
  all: apply only_closes_close; assumption.
Qed.

Lemma handleError_opens_nothing f error :
  mute is_window_open (Button_handleError f error).
Proof. unfold Button_handleError. mute_all. Qed.

Lemma handleMessage_opens_nothing f m :
  mute is_window_open (Button_handleMessage f m).
Proof.
  unfold Button_handleMessage. mute_all.
  all: apply handleError_opens_nothing.
Qed.

(** X4.  A message, whatever its origin and content, can only close
    popups: the buttons with their callbacks and product ids, the registry,
    the timers, the document and the listener are as before, no window is
    opened, and a window that was closed stays closed. *)
Theorem a_message_can_only_close_popups (m : MessageEvent) (w : World) :
  only_closes w (world_of (step (EvMessage m) w)) /\
  List.filter is_window_open (trace_of (step (EvMessage m) w)) = [].
Proof.
  split.
  - assert (H : preserves (only_closes w) (step (EvMessage m))).
    { unfold step, Client_handleMessage. preserves_all.
      apply handleMessage_only_closes. }
    apply H, only_closes_refl.
  - apply mute_at. unfold step, Client_handleMessage. mute_all.
    apply handleMessage_opens_nothing.
Qed.

Lemma mute_forEach_members P members body :
  (forall x, x ∈ members -> mute P (body x)) ->
  mute P (Set_forEach members body).
Proof.
  induction members as [|x rest IH]; intros Hb; simpl.
  - apply mute_ret.
  - apply mute_bind; [apply mute_get_world | intros w'].
    apply mute_bind.
    + destruct (decide (x ∈ _activeFeatures w')); [|apply mute_ret].
      apply Hb. left.
    + intros _. apply IH. intros y Hy. apply Hb. right. exact Hy.
Qed.

Lemma unregistered_feature_receives_nothing f m w :
  f ∉ _activeFeatures w ->
  List.filter (is_call_of f) (trace_of (step (EvMessage m) w)) = [].
Proof.
  intros Hf. unfold step. rewrite trace_bind. simpl.
  destruct (listening w); [|reflexivity].
  unfold Client_handleMessage. rewrite trace_bind. simpl.
  destruct (negb _); [reflexivity|].
  apply mute_at, mute_forEach_members.
  intros x Hx. apply handleMessage_calls_own. intros ->. contradiction.
Qed.

Lemma handleError_keeps_unregistered f g error :
  preserves (fun w => f ∉ _activeFeatures w) (Button_handleError g error).
Proof. unfold Button_handleError. preserves_all. Qed.

Lemma destroy_keeps_unregistered f g :
  preserves (fun w => f ∉ _activeFeatures w) (Button_destroy g).
Proof.
  unfold Button_destroy. preserves_all.
  intros Hin. apply list_elem_of_filter in Hin. destruct Hin as [_ Hin].
  contradiction.
Qed.

Lemma step_keeps_unregistered f e :
  mounts f e = false ->
  preserves (fun w => f ∉ _activeFeatures w) (step e).
Proof.
  intros Hm.
  destruct e as [id|g options|g| |id r|m|t|h|ms]; unfold step;
    unfold Button_mount, Button_openPopup, Client_destroy,
      Client_handleMessage, Button_handleMessage, pollTick;
    preserves_all;
    try apply handleError_keeps_unregistered;
    try apply destroy_keeps_unregistered.
  - cbn [mounts] in Hm. apply Nat.eqb_neq in Hm. unfold Set_add.
    destruct (decide (g ∈ _activeFeatures _)); [assumption|].
    intros Hin. apply elem_of_app in Hin. destruct Hin as [Hin|Hin];
      [contradiction|].
    apply list_elem_of_singleton in Hin. congruence.
  - apply not_elem_of_nil.
Qed.

(** X5.  Once a button is destroyed, and for as long as it is not mounted
    again, it stays out of the registry and no message calls any of its
    callbacks, whatever else happens on the page in between. *)
Theorem destroyed_feature_receives_no_message
    (w : World) (f : fid) (this : GalliunButton) (evs : list event)
    (m : MessageEvent) :
  buttons w !! f = Some this ->
  forallb (fun e => negb (mounts f e)) evs = true ->
  let w' := fst (run evs (world_of (Button_destroy f w))) in
  (f ∉ _activeFeatures w') /\
  List.filter (is_call_of f) (trace_of (step (EvMessage m) w')) = [].
Proof.
  intros Hf Hevs. cbv zeta.
  assert (H : f ∉ _activeFeatures
                    (fst (run evs (world_of (Button_destroy f w))))).
  { assert (H0 : f ∉ _activeFeatures (world_of (Button_destroy f w)))
      by (rewrite (destroy_at f this w Hf); apply Set_delete_not_elem).
    revert H0. generalize (world_of (Button_destroy f w)).
    induction evs as [|e evs IH]; intros w0 H0; [exact H0|].
    cbn [forallb] in Hevs. apply andb_true_iff in Hevs.
    destruct Hevs as [He Hevs]. apply negb_true_iff in He.
    rewrite run_cons. cbn [fst].
    apply (IH Hevs), (step_keeps_unregistered f e He w0 H0). }
  split; [exact H|].
  apply unregistered_feature_receives_nothing, H.
Qed.

Lemma destroyed_feature_witness :
  List.filter (is_call_of 0)
    (trace_of (step (EvMessage
                       (success_message "https://pay.example"
                          (example_payload "p1")))
                 (fst (run [EvTick 0; EvMessage loaded_message;
                            EvClick "pay" (OpenNew false)]
                         (world_of (Button_destroy 0 opened_world)))))) = [].
Proof.
  exact (proj2 (destroyed_feature_receives_no_message opened_world 0
                  (set_popup (Some 0) mounted_button)
                  [EvTick 0; EvMessage loaded_message;
                   EvClick "pay" (OpenNew false)]
                  _ eq_refl eq_refl)).
Defined.

(** A later [mount] registers the button again (line 96), and messages
    reach it from then on. *)
Remark mount_after_destroy_registers_again :
  snd (run [EvDestroy 0;
            EvMount 0 (example_options (VStr "p1"));
            EvMessage (success_message "https://pay.example"
                         (example_payload "p1"))]
         mounted_world)
  = [Call 0 OnSuccess [success_result (example_payload "p1")]].
Proof. reflexivity. Qed.

(** X6.  A message whose type is none of success, error and close changes
    nothing: a [GALLIUN_LOADED] message calls [onLoaded] if there is one,
    and a message of any other type is ignored. *)
Theorem other_messages_change_nothing
    (w : World) (f : fid) (this : GalliunButton) (m : MessageEvent) :
  buttons w !! f = Some this ->
  nullish (data m) = false ->
  strict_eq_str (prop (data m) "type") "GALLIUN_SUCCESS" = false ->
  strict_eq_str (prop (data m) "type") "GALLIUN_ERROR" = false ->
  strict_eq_str (prop (data m) "type") "GALLIUN_CLOSE" = false ->
  world_of (Button_handleMessage f m w) = w /\
  trace_of (Button_handleMessage f m w) = loaded_calls f (callbacks this) m.
Proof.
  intros Hf Hn Hs He Hc. unfold Button_handleMessage, loaded_calls.
  unfold getProp. unfold_monad.
  destruct (data m) as [| |b|n|s|fields]; try discriminate Hn;
    simpl in *; rewrite ?Hs, ?He, ?Hc, Hf;
    try (split; reflexivity).
  destruct (strict_eq_str _ "GALLIUN_LOADED"); [|split; reflexivity].
  destruct (onLoaded (callbacks this)) as [[]|]; split; reflexivity.
Qed.

Lemma other_messages_witness :
  trace_of (Button_handleMessage 0 loaded_message mounted_world)
  = [Call 0 OnLoaded []].
Proof.
  exact (proj2 (other_messages_change_nothing mounted_world 0 mounted_button
                  loaded_message eq_refl eq_refl eq_refl eq_refl eq_refl)).
Defined.

(** ** Messages that lack what the handler reads *)

(** X7.  A message from the trusted origin whose [data] is [null] or
    [undefined] makes the handler of the first registered feature raise a
    [TypeError]: the router's handler raises, no callback is called and
    nothing changes.  With an empty registry the message is dropped. *)
Theorem message_without_data_raises (w : World) (m : MessageEvent) :
  origin m = popupOrigin w ->
  nullish (data m) = true ->
  Client_handleMessage m w =
  (w, [], match _activeFeatures w with
          | [] => Ret tt
          | _ :: _ => Throw TypeError
          end).
Proof.
  intros Ho Hn. unfold Client_handleMessage. unfold bind at 1.
  unfold get_world. apply String.eqb_eq in Ho. rewrite Ho. simpl.
  destruct (_activeFeatures w) as [|x rest] eqn:Hr; [reflexivity|].
  simpl. unfold bind at 1. unfold get_world. rewrite Hr.
  rewrite decide_True by left.
  unfold Button_handleMessage.
  destruct (data m); try discriminate Hn; reflexivity.
Qed.

Lemma message_without_data_witness :
  Client_handleMessage (mkMessageEvent "https://pay.example" VNull)
    mounted_world
  = (mounted_world, [], Throw TypeError).
Proof.
  exact (message_without_data_raises mounted_world
           (mkMessageEvent "https://pay.example" VNull) eq_refl eq_refl).
Defined.

(** X8.  A success or error message without payload: when the callback
    for it is set, building the callback's argument raises a [TypeError]
    before anything is done, so the callback is not called and the popup
    stays as it is; when the callback is not set, the popup is closed and
    nothing is raised. *)
Theorem terminal_message_without_payload
    (w : World) (f : fid) (this : GalliunButton) (m : MessageEvent) :
  buttons w !! f = Some this ->
  nullish (prop (data m) "data") = true ->
  (prop (data m) "type" = VStr "GALLIUN_SUCCESS" ->
   Button_handleMessage f m w =
   match onSuccess (callbacks this) with
   | Some _ => (w, [], Throw TypeError)
   | None => (closed_popup (popup this) w, [], Ret tt)
   end) /\
  (prop (data m) "type" = VStr "GALLIUN_ERROR" ->
   Button_handleMessage f m w =
   match onError (callbacks this) with
   | Some _ => (w, [], Throw TypeError)
   | None => (closed_popup (popup this) w, [], Ret tt)
   end).
Proof.
  intros Hf Hd.
  split; intros Hty;
    unfold Button_handleMessage, Button_handleError, close_if_popup;
    unfold getProp; unfold_monad;
    (destruct (data m) as [| | | | |fields]; try discriminate Hty);
    simpl in Hty, Hd; simpl; rewrite Hty; simpl; rewrite !Hf; simpl.
  - destruct (onSuccess (callbacks this)).
    + destruct (default VUndefined (assoc "data" fields));
        try discriminate Hd; reflexivity.
    + simpl. rewrite ?Hf. destruct (popup this); reflexivity.
  - destruct (onError (callbacks this)).
    + destruct (default VUndefined (assoc "data" fields));
        try discriminate Hd; reflexivity.
    + simpl. rewrite ?Hf. destruct (popup this); reflexivity.
Qed.

Lemma terminal_message_without_payload_witness :
  Button_handleMessage 0
    (mkMessageEvent "https://pay.example"
       (VObj [("type", VStr "GALLIUN_ERROR")]))
    opened_world
  = (opened_world, [], Throw TypeError).
Proof.
  exact (proj2 (terminal_message_without_payload opened_world 0
                  (set_popup (Some 0) mounted_button)
                  (mkMessageEvent "https://pay.example"
                     (VObj [("type", VStr "GALLIUN_ERROR")]))
                  eq_refl eq_refl) eq_refl).
Defined.

(** ** Errors reported by the remote page *)

Lemma bind_ret_l {A B} (a : A) (k : A -> M B) w : bind (ret a) k w = k a w.
Proof. unfold bind, ret. destruct (k a w) as [[w2 t2] r]. reflexivity. Qed.

Lemma handleMessage_error_at f m w :
  prop (data m) "type" = VStr "GALLIUN_ERROR" ->
  Button_handleMessage f m w = Button_handleError f (prop (data m) "data") w.
Proof.
  intros Hty. unfold Button_handleMessage. unfold getProp.
  destruct (data m) as [| | | | |fields]; try discriminate Hty.
  simpl in Hty. simpl. rewrite !bind_ret_l, Hty.
  destruct (buttons w !! f) as [this|] eqn:Hf.
  - unfold bind at 1. rewrite (this_at f this w Hf). simpl.
    destruct (Button_handleError f _ w) as [[w2 t2] r]. reflexivity.
  - unfold Button_handleError, this_; unfold bind, get_world, throw.
    rewrite Hf. reflexivity.
Qed.

(** X9.  An error message with a payload calls [onError] exactly once and
    never [onSuccess].  The error it is given has a type in every case,
    [api_error] when the payload has none; its message is the payload's
    [message] or else its [error]; its metadata carry the product id stored
    in the feature and the time of the call.  When the callback returns the
    popup, if any, is closed. *)
Theorem error_message_is_normalised
    (w : World) (f : fid) (this : GalliunButton) (cb : callback)
    (m : MessageEvent) :
  buttons w !! f = Some this ->
  onError (callbacks this) = Some cb ->
  prop (data m) "type" = VStr "GALLIUN_ERROR" ->
  nullish (prop (data m) "data") = false ->
  let d := prop (data m) "data" in
  let err := standardError (productId this) (now w) d in
  trace_of (Button_handleMessage f m w) = [Call f OnError [err]] /\
  truthy (prop err "type") = true /\
  (truthy (prop d "type") = false -> prop err "type" = VStr "api_error") /\
  (truthy (prop d "type") = true -> prop err "type" = prop d "type") /\
  (truthy (prop d "message") = false -> prop err "message" = prop d "error") /\
  prop (prop err "metadata") "productId" = productId this /\
  prop (prop err "metadata") "timestamp" = VNum (now w) /\
  (cb = Returns ->
   world_of (Button_handleMessage f m w) = closed_popup (popup this) w).
Proof.
  intros Hf Hcb Hty Hd. cbv zeta.
  rewrite (handleMessage_error_at f m w Hty).
  rewrite (handleError_at f this cb _ w Hf Hcb Hd).
  unfold standardError, js_or. simpl.
  split; [destruct cb; reflexivity|].
  split; [destruct (truthy (prop (prop (data m) "data") "type")) eqn:E;
          [exact E | reflexivity]|].
  split; [intros E; rewrite E; reflexivity|].
  split; [intros E; rewrite E; reflexivity|].
  split; [intros E; rewrite E; reflexivity|].
  split; [reflexivity|]. split; [reflexivity|].
  intros ->. reflexivity.
Qed.

Lemma error_message_witness :
  trace_of (Button_handleMessage 0
              (error_message "https://pay.example"
                 (VObj [("error", VStr "declined")]))
              mounted_world)
  = [Call 0 OnError
       [standardError (VStr "p1") 1000%Z (VObj [("error", VStr "declined")])]].
Proof.
  exact (proj1 (error_message_is_normalised mounted_world 0 mounted_button
                  Returns
                  (error_message "https://pay.example"
                     (VObj [("error", VStr "declined")]))
                  eq_refl eq_refl eq_refl eq_refl)).
Defined.

(** ** The closure poll *)

Lemma step_tick_at f t w :
  intervals w !! t = Some (Some f) -> step (EvTick t) w = pollTick f t w.
Proof.
  intros H. unfold step. unfold bind at 1. unfold get_world. rewrite H.
  destruct (pollTick f t w) as [[w1 t1] r1]. reflexivity.
Qed.


Lemma pollTick_closed_trace f this h t w :
  buttons w !! f = Some this ->
  popup this = Some h ->
  is_closed w h = true ->
  world_of (pollTick f t w) = set_intervals (<[t := None]> (intervals w)) w /\
  trace_of (pollTick f t w) = close_calls f (callbacks this).
Proof. intros Hf Hp Hc. apply (pollTick_closed_at f this h t w Hf Hp Hc). Qed.






(** ** Opening a popup *)

Lemma length_windows_closed_if_open p w :
  length (windows (closed_if_open p w)) = length (windows w).
Proof.
  destruct p as [h|]; simpl; [|reflexivity].
  destruct (is_closed w h); simpl; [reflexivity | apply length_insert].
Qed.

Lemma lookup_snoc_insert {A} (l : list A) (i : nat) (y x : A) :
  (<[i := y]> l ++ [x]) !! length l = Some x.
Proof. rewrite <- (length_insert l i y). apply lookup_snoc. Qed.

Lemma openPopup_new_at f this pid w :
  buttons w !! f = Some this ->
  Button_openPopup f pid (OpenNew false) w =
  (reopened f (popup this) w,
   [WindowOpen (popup_url this pid) "GalliunPaymentPopup" (popup_features w)],
   Ret tt).
Proof.
  intros Hf.
  unfold Button_openPopup, close_if_open, popup_gone, reopened, closed_if_open.
  unfold_monad. rewrite Hf. unfold popup_url.
  destruct (popup this) as [h0|]; [destruct (is_closed w h0) eqn:E|];
    unfold is_closed in *; simpl in *;
    repeat first [rewrite list_lookup_alter_eq | rewrite Hf
                 | rewrite lookup_snoc | rewrite lookup_snoc_insert
                 | rewrite length_insert | progress simpl];
    reflexivity.
Qed.

Lemma run_nil w : run [] w = (w, []).
Proof. reflexivity. Qed.

(** X12.  Opening a popup while the earlier one is still open closes the
    earlier one and stores the new one, but the poll of the earlier popup
    is not cancelled: it goes on, now watching the new popup, beside the
    poll just started.  When the user closes the new popup both timers
    report it, so [onClose] is called twice. *)
Theorem reopening_keeps_the_earlier_poll
    (w : World) (f : fid) (this : GalliunButton) (h : handle) (t : timer)
    (pid : jsval) :
  buttons w !! f = Some this ->
  popup this = Some h ->
  windows w !! h = Some false ->
  intervals w !! t = Some (Some f) ->
  let w1 := world_of (Button_openPopup f pid (OpenNew false) w) in
  let h' := length (windows w) in
  let t' := length (intervals w) in
  is_closed w1 h = true /\
  buttons w1 !! f = Some (set_popup (Some h') this) /\
  windows w1 !! h' = Some false /\
  intervals w1 !! t = Some (Some f) /\
  intervals w1 !! t' = Some (Some f) /\
  snd (run [EvUserClose h'; EvTick t; EvTick t'] w1)
  = close_calls f (callbacks this) ++ close_calls f (callbacks this).
Proof.
  intros Hf Hp Hw Ht. cbv zeta.
  rewrite (openPopup_new_at f this pid w Hf). cbn [world_of fst].
  assert (Ho : is_closed w h = false)
    by (unfold is_closed; rewrite Hw; reflexivity).
  assert (Hh : h < length (windows w)) by (apply lookup_lt_Some in Hw; exact Hw).
  assert (Hlt : t < length (intervals w))
    by (apply lookup_lt_Some in Ht; exact Ht).
  set (h' := length (windows w)). set (t' := length (intervals w)).
  set (this' := set_popup (Some h') this).
  set (w1 := reopened f (popup this) w).
  assert (Hws : windows w1 = <[h := true]> (windows w) ++ [false]).
  { unfold w1, reopened. rewrite Hp. simpl. rewrite Ho. reflexivity. }
  assert (Hf1 : buttons w1 !! f = Some this').
  { unfold w1, reopened. simpl. rewrite list_lookup_alter_eq, Hf. reflexivity. }
  assert (Hi1 : intervals w1 = intervals w ++ [Some f]) by reflexivity.
  assert (Hn : windows w1 !! h' = Some false)
    by (rewrite Hws; apply lookup_snoc_insert).
  assert (Ht1 : intervals w1 !! t = Some (Some f))
    by (rewrite Hi1; apply lookup_app_l_Some, Ht).
  assert (Ht1' : intervals w1 !! t' = Some (Some f))
    by (rewrite Hi1; apply lookup_snoc).
  split.
  { unfold is_closed. rewrite Hws, lookup_app_l by (rewrite length_insert; lia).
    rewrite list_lookup_insert_eq by lia. reflexivity. }
  split; [exact Hf1|]. split; [exact Hn|]. split; [exact Ht1|].
  split; [exact Ht1'|].
  rewrite run_cons.
  change (world_of (step (EvUserClose h') w1))
    with (set_windows (<[h' := true]> (windows w1)) w1).
  change (trace_of (step (EvUserClose h') w1)) with (@nil obs).
  set (w2 := set_windows _ w1).
  assert (Hc2 : is_closed w2 h' = true).
  { unfold w2. rewrite is_closed_insert, bool_decide_eq_true_2 by reflexivity.
    apply orb_true_r. }
  assert (Hp' : popup this' = Some h') by reflexivity.
  rewrite run_cons, (step_tick_at f t w2 Ht1).
  destruct (pollTick_closed_trace f this' h' t w2 Hf1 Hp' Hc2) as [Hw3 Htr3].
  rewrite Hw3, Htr3.
  set (w3 := set_intervals _ w2).
  assert (Ht3 : intervals w3 !! t' = Some (Some f)).
  { unfold w3. simpl. rewrite list_lookup_insert_ne by (unfold t'; lia).
    exact Ht1'. }
  rewrite run_cons, (step_tick_at f t' w3 Ht3).
  destruct (pollTick_closed_trace f this' h' t' w3 Hf1 Hp' Hc2) as [Hw4 Htr4].
  rewrite Htr4, run_nil. cbn [snd]. rewrite app_nil_r. reflexivity.
Qed.

Lemma reopening_witness :
  snd (run [EvUserClose 1; EvTick 0; EvTick 1]
         (world_of (Button_openPopup 0 (VStr "p1") (OpenNew false)
                      opened_world)))
  = [Call 0 OnClose []; Call 0 OnClose []].
Proof.
  exact (proj2 (proj2 (proj2 (proj2 (proj2
    (reopening_keeps_the_earlier_poll opened_world 0
       (set_popup (Some 0) mounted_button) 0 0 (VStr "p1")
       eq_refl eq_refl eq_refl eq_refl)))))).
Defined.

(** ** A successful mount *)




(** A product id that is a number is written as [Number::toString] writes
    it, with an exponent from [1e21] on, and the sign of the exponent is
    then escaped. *)
Remark numeric_productId_in_the_popup_url :
  toString (VNum (10 ^ 21 - 2 ^ 17)%Z) = "999999999999999900000" /\
  toString (VNum (10 ^ 21)%Z) = "1e+21" /\
  trace_of (step (EvClick "pay" (OpenNew false))
              (world_of (Button_mount 0 (example_options (VNum (10 ^ 21)%Z))
                           example_world)))
  = [WindowOpen "https://pay.example/popup-payment?productId=1e%2B21"
       "GalliunPaymentPopup"
       "width=400,height=600,left=312,top=84,resizable=yes,scrollbars=yes"].
Proof. repeat split; vm_compute; reflexivity. Qed.

(** ** The rendered button *)





(** ** Tearing the client down *)

Lemma forEach_destroy members :
  forall w,
    NoDup members ->
    (forall x, x ∈ members -> x ∈ _activeFeatures w) ->
    (forall x, x ∈ members -> is_Some (buttons w !! x)) ->
    exists w',
      Set_forEach members (fun feature => Button_destroy feature) w
      = (w', [], Ret tt) /\
      buttons w' = buttons w /\ intervals w' = intervals w /\
      dom w' = dom w /\ listening w' = listening w /\
      (forall h, is_closed w h = true -> is_closed w' h = true) /\
      (forall x this h, x ∈ members -> buttons w !! x = Some this ->
         popup this = Some h -> is_closed w' h = true).
Proof.
  induction members as [|x rest IH]; intros w Hnd Hin Hval.
  - exists w. repeat split; auto. intros x this h Hx. inversion Hx.
  - apply NoDup_cons in Hnd. destruct Hnd as [Hx Hnd].
    destruct (Hval x ltac:(left)) as [this Hthis].
    simpl. unfold bind at 1. unfold get_world.
    rewrite decide_True by (apply Hin; left).
    unfold bind at 1. rewrite (destroy_at x this w Hthis).
    set (w1 := set_activeFeatures _ _).
    assert (Hb1 : buttons w1 = buttons w).
    { unfold w1. destruct (popup this) as [h|]; simpl;
        [destruct (is_closed w h)|]; reflexivity. }
    assert (Hi1 : intervals w1 = intervals w /\ dom w1 = dom w
                  /\ listening w1 = listening w).
    { unfold w1. destruct (popup this) as [h|]; simpl;
        [destruct (is_closed w h)|]; repeat split. }
    assert (Hc1 : forall h, is_closed w h = true -> is_closed w1 h = true).
    { intros h Hh. unfold w1. destruct (popup this) as [h0|]; simpl;
        [|exact Hh].
      destruct (is_closed w h0); [exact Hh|].
      change (is_closed (set_windows (<[h0:=true]> (windows w)) w) h = true).
      rewrite is_closed_insert, Hh. reflexivity. }
    assert (Hp1 : forall h, popup this = Some h -> is_closed w1 h = true).
    { intros h Hp. unfold w1. rewrite Hp.
      apply (is_closed_closed_if_open h w). }
    destruct (IH w1 Hnd) as (w' & E & Hb & Hi & Hd & Hl & Hc & Hp).
    { intros y Hy. unfold w1. simpl. apply Set_delete_other.
      - intros ->. contradiction.
      - apply Hin. right. exact Hy. }
    { intros y Hy. rewrite Hb1. apply Hval. right. exact Hy. }
    rewrite E. exists w'. destruct Hi1 as (Hi1 & Hd1 & Hl1).
    split; [reflexivity|].
    split; [congruence|]. split; [congruence|]. split; [congruence|].
    split; [congruence|].
    split; [intros h Hh; apply Hc, Hc1, Hh|].
    intros y thisy h Hy Hby Hpy. apply elem_of_cons in Hy.
    destruct Hy as [->|Hy].
    + rewrite Hthis in Hby. injection Hby as <-. apply Hc, Hp1, Hpy.
    + apply (Hp y thisy h Hy); [rewrite Hb1; exact Hby | exact Hpy].
Qed.

(** X15.  [destroy] of the client removes the listener, destroys every
    registered feature and empties the registry: it returns normally and
    calls no callback; the popup of every feature that was registered is
    closed; the buttons and the document are as before.  The poll timers
    are left running. *)
Theorem client_destroy_tears_down (w : World) :
  registry_valid w ->
  let w' := world_of (Client_destroy w) in
  Client_destroy w = (w', [], Ret tt) /\
  listening w' = false /\
  _activeFeatures w' = [] /\
  buttons w' = buttons w /\
  dom w' = dom w /\
  intervals w' = intervals w /\
  (forall f this h, f ∈ _activeFeatures w -> buttons w !! f = Some this ->
     popup this = Some h -> is_closed w' h = true) /\
  (forall h, is_closed w h = true -> is_closed w' h = true).
Proof.
  intros [Hnd Hval]. cbv zeta.
  destruct (forEach_destroy (_activeFeatures w) (set_listening false w) Hnd
              (fun x H => H)
              (fun x H => lookup_lt_is_Some_2 _ _ (Hval x H)))
    as (w1 & E & Hb & Hi & Hd & Hl & Hc & Hp).
  assert (Er : Client_destroy w = (set_activeFeatures [] w1, [], Ret tt)).
  { unfold Client_destroy. unfold bind at 1. unfold modify at 1.
    unfold bind at 1. unfold get_world at 1.
    cbn [_activeFeatures set_listening]. unfold bind at 1. rewrite E.
    reflexivity. }
  rewrite Er. cbn [world_of fst].
  split; [reflexivity|]. split; [exact Hl|]. split; [reflexivity|].
  split; [exact Hb|]. split; [exact Hd|]. split; [exact Hi|].
  split; [|exact Hc].
  intros f this h Hf Hbf Hpf. apply (Hp f this h Hf Hbf Hpf).
Qed.

Lemma client_destroy_witness :
  Client_destroy opened_world
  = (world_of (Client_destroy opened_world), [], Ret tt).
Proof.
  refine (proj1 (client_destroy_tears_down opened_world _)).
  split; [apply NoDup_singleton|].
  intros f Hf. apply list_elem_of_singleton in Hf. subst f.
  apply (lookup_lt_Some _ _ (set_popup (Some 0) mounted_button)). reflexivity.
Defined.

Lemma step_keeps_listener_removed e :
  preserves (fun w => listening w = false) (step e).
Proof.
  assert (He : forall g error,
             preserves (fun w => listening w = false)
               (Button_handleError g error)).
  { intros g error. unfold Button_handleError. preserves_all. }
  destruct e; simpl;
    unfold Button_mount, Button_destroy, Button_openPopup, Client_destroy,
      Client_handleMessage, Button_handleMessage, pollTick;
    preserves_all; try apply He; try reflexivity.
  unfold Button_destroy. preserves_all.
Qed.

(** X16.  Once the listener is removed, as [destroy] of the client does,
    no message is dispatched any more: whatever happens on the page
    afterwards, the run is the same, in its final world and in everything
    observed, as the run without the messages. *)
Theorem no_message_is_dispatched_after_teardown
    (w : World) (evs : list event) :
  listening w = false ->
  run evs w = run (List.filter not_a_message evs) w.
Proof.
  revert w. induction evs as [|e evs IH]; intros w Hl; [reflexivity|].
  pose proof (step_keeps_listener_removed e w Hl) as Hl1.
  destruct (not_a_message e) eqn:He; cbn [List.filter]; rewrite He.
  - rewrite !run_cons, (IH _ Hl1). reflexivity.
  - destruct e; try discriminate He.
    assert (Hd : step (EvMessage m) w = (w, [], Ret tt)).
    { unfold step, bind, get_world. rewrite Hl. reflexivity. }
    rewrite run_cons, Hd. cbn [world_of trace_of fst snd app].
    rewrite (IH w Hl). destruct (run _ w). reflexivity.
Qed.

Lemma teardown_witness :
  run [EvMessage (success_message "https://pay.example" (example_payload "p1"))]
    (world_of (Client_destroy opened_world))
  = run [] (world_of (Client_destroy opened_world)).
Proof.
  exact (no_message_is_dispatched_after_teardown
           (world_of (Client_destroy opened_world))
           [EvMessage (success_message "https://pay.example"
                         (example_payload "p1"))]
           eq_refl).
Defined.

(** ** The registry, in every world that a page can reach *)

Lemma registry_valid_alter g f w :
  registry_valid w ->
  registry_valid (set_buttons (alter g f (buttons w)) w).
Proof.
  intros [Hnd Hv]. split; [exact Hnd|].
  intros x Hx. simpl. rewrite length_alter. apply Hv, Hx.
Qed.

Lemma registry_valid_delete g w :
  registry_valid w ->
  registry_valid (set_activeFeatures (Set_delete g (_activeFeatures w)) w).
Proof.
  intros [Hnd Hv]. split; [apply Set_delete_NoDup, Hnd|].
  intros x Hx. simpl in *. apply list_elem_of_filter in Hx. apply Hv, Hx.
Qed.

Lemma registry_valid_add f w :
  registry_valid w -> f < length (buttons w) ->
  registry_valid (set_activeFeatures (Set_add f (_activeFeatures w)) w).
Proof.
  intros [Hnd Hv] Hf. split; [apply Set_add_NoDup, Hnd|].
  intros x Hx. simpl in *. unfold Set_add in Hx.
  destruct (decide (f ∈ _activeFeatures w)); [apply Hv, Hx|].
  apply elem_of_app in Hx. destruct Hx as [Hx|Hx]; [apply Hv, Hx|].
  apply list_elem_of_singleton in Hx. subst x. exact Hf.
Qed.

Lemma registry_valid_create b w :
  registry_valid w -> registry_valid (set_buttons (buttons w ++ [b]) w).
Proof.
  intros [Hnd Hv]. split; [exact Hnd|].
  intros x Hx. cbn [buttons set_buttons]. rewrite length_app.
  specialize (Hv x Hx). lia.
Qed.

Lemma handleError_registry_valid (I : World -> Prop) g error :
  (forall w ws, I w -> I (set_windows ws w)) ->
  preserves I (Button_handleError g error).
Proof.
  intros HI. unfold Button_handleError. preserves_all. apply HI. assumption.
Qed.

Lemma destroy_registry_valid g : preserves registry_valid (Button_destroy g).
Proof.
  unfold Button_destroy. preserves_all. apply registry_valid_delete.
  assumption.
Qed.

Lemma preserves_after_this {B} (I : World -> Prop) f
    (k : GalliunButton -> M B) :
  (forall this,
     preserves (fun w => I w /\ f < length (buttons w)) (k this)) ->
  preserves I (bind (this_ f) k).
Proof.
  intros Hk w Hw. unfold bind at 1.
  destruct (buttons w !! f) as [this|] eqn:Hf.
  - rewrite (this_at f this w Hf).
    assert (Hlt : f < length (buttons w))
      by (apply lookup_lt_Some in Hf; exact Hf).
    specialize (Hk this w (conj Hw Hlt)). unfold world_of in *.
    destruct (k this w) as [[w2 t2] r]. simpl in *. apply Hk.
  - unfold this_. unfold bind, get_world. rewrite Hf. exact Hw.
Qed.

Ltac split_valid :=
  match goal with
  | H : _ /\ _ < length (buttons _) |- _ => destruct H
  end; split.

Lemma mount_registry_valid f options :
  preserves registry_valid (Button_mount f options).
Proof.
  unfold Button_mount. apply preserves_after_this. intros this.
  preserves_all.
  - split_valid; [apply registry_valid_alter; assumption|].
    simpl. rewrite length_alter. assumption.
  - split_valid; [apply registry_valid_add; assumption | assumption].
  - apply handleError_registry_valid. intros w' ws H'. exact H'.
  - split_valid; [apply registry_valid_alter; assumption|].
    simpl. rewrite length_alter. assumption.
Qed.

Lemma step_registry_valid e : preserves registry_valid (step e).
Proof.
  destruct e as [id|g options|g| |id r|m|t|h|ms]; unfold step.
  - intros w Hw. apply (registry_valid_create _ w Hw).
  - apply mount_registry_valid.
  - apply destroy_registry_valid.
  - unfold Client_destroy. preserves_all.
    + apply destroy_registry_valid.
    + split; [apply NoDup_nil; exact I | intros x Hx; inversion Hx].
  - unfold Button_openPopup. preserves_all.
    + apply registry_valid_alter. assumption.
    + apply handleError_registry_valid. intros w' ws H'. exact H'.
  - unfold Client_handleMessage, Button_handleMessage. preserves_all.
    all: apply handleError_registry_valid; intros w' ws H'; exact H'.
  - unfold pollTick. preserves_all.
  - preserves_all.
  - preserves_all.
Qed.

(** X17.  In every world that a page reaches from a new client, the
    registry holds each feature once and only buttons that were created:
    what [destroy] of the client relies on holds at any time. *)
Theorem registry_is_valid_in_every_reachable_world
    (URL_origin : string -> string) (base : jsval)
    (page : gmap string Container) (width height clock : Z)
    (evs : list event) :
  registry_valid
    (fst (run evs (GalliunClient_new URL_origin base page width height clock))).
Proof.
  assert (H0 : registry_valid
                 (GalliunClient_new URL_origin base page width height clock)).
  { split; [apply NoDup_nil; exact I | intros x Hx; inversion Hx]. }
  revert H0. generalize (GalliunClient_new URL_origin base page width height clock).
  induction evs as [|e evs IH]; intros w Hw; [exact Hw|].
  rewrite run_cons. cbn [fst]. apply IH, step_registry_valid, Hw.
Qed.

(** X18.  The trusted origin is computed once, when the client is made,
    from the configured base URL, or from [http://localhost:5173] when none
    is configured; nothing that happens on the page afterwards changes
    it. *)
Theorem trusted_origin_is_fixed_at_construction
    (URL_origin : string -> string) (base : jsval)
    (page : gmap string Container) (width height clock : Z)
    (evs : list event) :
  popupOrigin
    (fst (run evs (GalliunClient_new URL_origin base page width height clock)))
  = URL_origin (if truthy base then toString base
                else "http://localhost:5173").
Proof.
  rewrite run_keeps_trusted_origin. unfold GalliunClient_new, js_or. simpl.
  destruct (truthy base); reflexivity.
Qed.

(** ** Errors when no [onError] is supplied *)



